(** * Commit workflow of nomi ([usecases/commit/main.go])

    A shallow embedding of [OnStart] and its helpers, and the properties
    of the snapshot / negotiate / execute workflow that can be read off
    the code.

    The workflow talks to collaborators it only knows through interfaces
    (console, text-to-JSON backend, selector, input area, context).  They
    are modelled as transition functions on an abstract [World]; every
    call the workflow makes is also written to an event list, so that the
    order and number of external invocations can be stated. *)

From Stdlib Require Import List String Ascii Arith Lia Bool.
From Stdlib Require Import DecimalString.
From Stdlib Require Import ZArith.
Import ListNotations.
Open Scope list_scope.
Open Scope string_scope.

(** ** Go strings and the library functions the workflow uses *)

Module GoString.

Definition bytes (l : list nat) : string :=
  fold_right (fun n s => String (ascii_of_nat n) s) EmptyString l.

Definition nl : string := bytes [10].
Definition tab : string := bytes [9].
Definition dq : string := bytes [34].

(** The [%d] verb on a non-negative int. *)
Definition itoa (n : nat) : string := NilEmpty.string_of_uint (Nat.to_uint n).

(** [strings.CutPrefix]: the rest of [s] after [p], when [s] starts with [p]. *)
Fixpoint stripPrefix (p s : string) : option string :=
  match p, s with
  | EmptyString, _ => Some s
  | String a p', String b s' => if Ascii.eqb a b then stripPrefix p' s' else None
  | String _ _, EmptyString => None
  end.

(** [strings.CutSuffix]: [s] without its ending [suf], when it ends with it. *)
Fixpoint stripSuffix (suf s : string) : option string :=
  if String.eqb s suf then Some EmptyString
  else match s with
       | EmptyString => None
       | String c s' => option_map (String c) (stripSuffix suf s')
       end.

(** [strings.HasSuffix]. *)
Definition HasSuffix (s suffix : string) : bool :=
  match stripSuffix suffix s with Some _ => true | None => false end.

(** [strings.Split] for a one-byte separator (both call sites pass one):
    the pieces between the occurrences of [sep]; never the empty list. *)
Fixpoint Split (s : string) (sep : ascii) : list string :=
  match s with
  | EmptyString => [EmptyString]
  | String c s' =>
      if Ascii.eqb c sep then EmptyString :: Split s' sep
      else match Split s' sep with
           | [] => [String c EmptyString]
           | p :: ps => String c p :: ps
           end
  end.

(** The UTF-8 encodings of the runes for which [unicode.IsSpace] holds:
    tab, LF, VT, FF, CR, space, U+0085, U+00A0, U+1680, U+2000 to U+200A,
    U+2028, U+2029, U+202F, U+205F and U+3000. *)
Definition spaceRunes : list string :=
  map bytes
    [ [9]; [10]; [11]; [12]; [13]; [32];
      [194; 133]; [194; 160];
      [225; 154; 128];
      [226; 128; 128]; [226; 128; 129]; [226; 128; 130]; [226; 128; 131];
      [226; 128; 132]; [226; 128; 133]; [226; 128; 134]; [226; 128; 135];
      [226; 128; 136]; [226; 128; 137]; [226; 128; 138];
      [226; 128; 168]; [226; 128; 169]; [226; 128; 175];
      [226; 129; 159];
      [227; 128; 128] ].

Fixpoint firstSome {A} (f : string -> option A) (l : list string) : option A :=
  match l with
  | [] => None
  | r :: l' => match f r with Some x => Some x | None => firstSome f l' end
  end.

(** [s] without the white-space rune it starts with, if it starts with one. *)
Definition dropSpace (s : string) : option string :=
  firstSome (fun r => stripPrefix r s) spaceRunes.

(** [s] without the white-space rune it ends with, if it ends with one. *)
Definition dropLastSpace (s : string) : option string :=
  firstSome (fun r => stripSuffix r s) spaceRunes.

(** [strings.TrimLeftFunc s unicode.IsSpace]: the loop runs at most once
    per byte of [s]. *)
Fixpoint trimLeft (n : nat) (s : string) : string :=
  match n with
  | 0 => s
  | S n' => match dropSpace s with
            | Some rest => trimLeft n' rest
            | None => s
            end
  end.

(** [strings.TrimRightFunc s unicode.IsSpace]. *)
Fixpoint trimRight (n : nat) (s : string) : string :=
  match n with
  | 0 => s
  | S n' => match dropLastSpace s with
            | Some rest => trimRight n' rest
            | None => s
            end
  end.

(** [strings.TrimSpace]. *)
Definition TrimSpace (s : string) : string :=
  let l := trimLeft (String.length s) s in
  trimRight (String.length l) l.

End GoString.
Import GoString.

(** The system instruction [agentPrompt]. *)
Definition agentPrompt : string :=
  "Create a commit plan in JSON format for staging patches and creating commits using Git, adhering to provided guidelines." ++ nl ++
  nl ++
  "## JSON Structure" ++ nl ++
  nl ++
  "The commit plan should be represented as a JSON object containing a list of actions. Each action includes both a `patch` and a `commit`:" ++ nl ++
  nl ++
  "- **Action**: Contains the file path, the Git patch, and the commit message." ++ nl ++
  nl ++
  "### Steps" ++ nl ++
  nl ++
  "1. **Analyze the Git Diff:**" ++ nl ++
  " - Group related changes into features or fixes." ++ nl ++
  " - Determine necessity for multiple commits for unrelated changes." ++ nl ++
  nl ++
  "2. **Prepare Staging Commands:**" ++ nl ++
  " - Use `git apply --cached` to stage specific lines." ++ nl ++
  " - Ensure accurate staging for atomic, feature-specific commits." ++ nl ++
  nl ++
  "3. **Generate Commit Messages:**" ++ nl ++
  " - Maintain present tense with an appropriate prefix and scope." ++ nl ++
  " - Exclude meaningless component names (e.g., " ++ dq ++ "internal" ++ dq ++ ") from commit titles." ++ nl ++
  " - Preserve only significant component names." ++ nl ++
  " - Keep messages concise, within 75 characters for titles." ++ nl ++
  nl ++
  "## Commit Message Specifications" ++ nl ++
  nl ++
  "- **Tense:** Present" ++ nl ++
  "- **Prefixes:** `feat:`, `fix:`, `docs:`, `style:`, `refactor:`, `perf:`, `test:`, `chore:`, `ci:`" ++ nl ++
  "- **Scope:** Specify affected significant component/module in parentheses." ++ nl ++
  "- **No Body:** Keep it concise unless additional description is necessary." ++ nl ++
  nl ++
  "### Additional Guidelines" ++ nl ++
  nl ++
  "- Group related changes for the same feature in a single commit." ++ nl ++
  "- Use multiple commits for unrelated changes." ++ nl ++
  "- Ensure messages are clear, concise, and specific." ++ nl ++
  "- Maintain consistent scoping based on file paths and modules." ++ nl ++
  nl ++
  "## Output Format" ++ nl ++
  nl ++
  "Provide the commit plan in a plain JSON format containing the necessary actions with both `patch` and `commit` details." ++ nl ++
  nl ++
  "## Example Commit Plan" ++ nl ++
  nl ++
  "{" ++ nl ++
  " " ++ dq ++ "commitPlan" ++ dq ++ ": [" ++ nl ++
  " {" ++ nl ++
  " " ++ dq ++ "filePath" ++ dq ++ ": " ++ dq ++ "cmd/cli/main.go" ++ dq ++ "," ++ nl ++
  " " ++ dq ++ "patch" ++ dq ++ ": " ++ dq ++ "diff --git a/cmd/cli/main.go b/cmd/cli/main.go\nindex 83c3e7f..b4b49b6 100644\n--- a/cmd/cli/main.go\n+++ b/cmd/cli/main.go\n@@ -10,6 +10,7 @@ package main\n import (\n \" ++ dq ++ "fmt\" ++ dq ++ "\n \" ++ dq ++ "os\" ++ dq ++ "\n+ \" ++ dq ++ "time\" ++ dq ++ "\n )\n" ++ dq ++ "," ++ nl ++
  " " ++ dq ++ "commitMessage" ++ dq ++ ": " ++ dq ++ "feat(cmd/cli): add time import" ++ dq ++ nl ++
  " }," ++ nl ++
  " {" ++ nl ++
  " " ++ dq ++ "filePath" ++ dq ++ ": " ++ dq ++ "internal/prompts/templates.go" ++ dq ++ "," ++ nl ++
  " " ++ dq ++ "patch" ++ dq ++ ": " ++ dq ++ "diff --git a/internal/prompts/templates.go b/internal/prompts/templates.go\nindex e69de29..f8a7e5d 100644\n--- a/internal/prompts/templates.go\n+++ b/internal/prompts/templates.go\n@@ -0,0 +1 @@\n+// New templates for prompts\n" ++ dq ++ "," ++ nl ++
  " " ++ dq ++ "commitMessage" ++ dq ++ ": " ++ dq ++ "docs(prompts): add new templates for prompts" ++ dq ++ nl ++
  " }" ++ nl ++
  " ]" ++ nl ++
  "}".

(** ** Data model *)

(** Go's [error] values are modelled by their message; [fmt.Errorf] with
    [%w] or [%s] splices the wrapped message in. A nil error is [None]. *)
Definition error := string.

(** Modelled from the spec: [tools.Command] is missing from the sources; a
    command is the program to run, its arguments and the optional stdin
    ("run an external program with given arguments and optional stdin"). *)
Record Command := mkCommand {
  Name : string;
  Args : list string;
  Input : option string
}.

Definition NewCommand (name : string) (args : list string) : Command :=
  mkCommand name args None.

Definition WithInput (cmd : Command) (input : string) : Command :=
  mkCommand (Name cmd) (Args cmd) (Some input).

(** Modelled from the spec: the result type of [tools.Console.Exec] is
    missing from the sources; an execution result is a success flag, the
    captured stdout and the captured stderr / error text. *)
Record Result := mkResult {
  Success : bool;
  Output : string;
  Error : string
}.

Inductive Role := RoleSystem | RoleUser | RoleAssistant.

(** Modelled from the spec: [chat.Message] and [chat.Conversation] are
    missing from the sources; a conversation is an ordered sequence of
    role-tagged messages and [AddMessage] appends at its end. *)
Record Message := NewMessage {
  MsgRole : Role;
  Content : string
}.

Definition Conversation := list Message.

Record action := mkAction {
  FilePath : string;
  Patch : string;
  CommitMessage : string
}.

Record commitPlan := mkCommitPlan {
  CommitPlan : list action
}.

Inductive Level := LInfo | LDebug | LError | LPrintln.

(** What the workflow does to the outside, in order. *)
Inductive Event :=
| EvExec (cmd : Command) (out : error + Result)
| EvLog (lvl : Level) (msg : string)
| EvGenerate (transcript : Conversation) (out : error + string)
| EvSelect (prompt : string) (default : bool) (answer : bool)
| EvRead (prompt : string) (answer : string).

(** The collaborators handed to [OnStart], as transitions of a world the
    workflow does not control. The backend shares the conversation with
    the workflow by reference, so [textToJSON_Do] may also change it.
    [ctx_Done] is one poll of the context's done channel; [time_Now] is
    [time.Now()] already in the layout [20060102T150405]. *)
Record Collaborators := {
  World : Type;
  console_Exec : Command -> World -> (error + Result) * World;
  textToJSON_Do : Conversation -> World -> (error + string) * Conversation * World;
  selector_SelectBool : string -> bool -> World -> bool * World;
  inputArea_Read : string -> World -> string * World;
  ctx_Done : World -> bool * World;
  time_Now : World -> string * World
}.

(** How a run of [OnStart] ends: it returns, or the model's bound on the
    number of negotiation rounds is used up while the loop is still going. *)
Inductive Outcome :=
| Returned (err : option error)
| OutOfFuel.

(** The external commands of the workflow, as the [tools.NewCommand] calls
    of the source build them. *)
Definition gitRevParse : Command :=
  NewCommand "git" ["rev-parse"; "--is-inside-work-tree"].
Definition gitStashPush (stashName : string) : Command :=
  NewCommand "git" ["stash"; "push"; "--include-untracked"; "--message"; stashName].
Definition gitStashShow : Command :=
  NewCommand "git" ["stash"; "show"; "--include-untracked"; "--patch"; "stash@{0}"].
Definition gitStashApply : Command := NewCommand "git" ["stash"; "apply"; "stash@{0}"].
Definition gitReset : Command := NewCommand "git" ["reset"].
Definition gitStashDrop : Command := NewCommand "git" ["stash"; "drop"; "stash@{0}"].
Definition gitApply (patch : string) : Command :=
  WithInput (NewCommand "git" ["apply"; "--cached"; "-p1"; "-"]) patch.
Definition gitCommit (message : string) : Command :=
  NewCommand "git" ["commit"; "--message"; message].

(** ** The workflow *)

Section Workflow.

Variable E : Collaborators.

(** [encoding/json]'s [Unmarshal] into a [commitPlan]. *)
Variable json_Unmarshal : string -> error + commitPlan.

Record State := mkState {
  world : World E;
  conversation : Conversation
}.

(** State passing with an event log. *)
Definition M (A : Type) : Type := State -> A * State * list Event.

Definition ret {A} (a : A) : M A := fun s => (a, s, []).

Definition bind {A B} (m : M A) (k : A -> M B) : M B :=
  fun s =>
    let '(a, s1, e1) := m s in
    let '(b, s2, e2) := k a s1 in
    (b, s2, (e1 ++ e2)%list).

Notation "x <- m ;; k" := (bind m (fun x => k))
  (at level 61, m at next level, right associativity).
Notation "m ;;; k" := (bind m (fun _ => k))
  (at level 61, right associativity).

Definition log (lvl : Level) (msg : string) : M unit :=
  fun s => (tt, s, [EvLog lvl msg]).

Definition Exec (cmd : Command) : M (error + Result) :=
  fun s =>
    let '(out, w) := console_Exec E cmd (world s) in
    (out, mkState w (conversation s), [EvExec cmd out]).

Definition AddMessage (m : Message) : M unit :=
  fun s => (tt, mkState (world s) (conversation s ++ [m])%list, []).

Definition Do : M (error + string) :=
  fun s =>
    let '(out, c, w) := textToJSON_Do E (conversation s) (world s) in
    (out, mkState w c, [EvGenerate (conversation s) out]).

Definition SelectBool (prompt : string) (default : bool) : M bool :=
  fun s =>
    let '(b, w) := selector_SelectBool E prompt default (world s) in
    (b, mkState w (conversation s), [EvSelect prompt default b]).

Definition Read (prompt : string) : M string :=
  fun s =>
    let '(l, w) := inputArea_Read E prompt (world s) in
    (l, mkState w (conversation s), [EvRead prompt l]).

Definition Done : M bool :=
  fun s =>
    let '(b, w) := ctx_Done E (world s) in
    (b, mkState w (conversation s), []).

Definition Now : M string :=
  fun s =>
    let '(t, w) := time_Now E (world s) in
    (t, mkState w (conversation s), []).

(** [err != nil || !result.Success()] *)
Definition failed (out : error + Result) : bool :=
  match out with
  | inl _ => true
  | inr result => negb (Success result)
  end.

Definition checkGitRepository : M (option error) :=
  out <- Exec gitRevParse ;;
  if failed out then ret (Some "not a git repository")
  else ret None.

Definition stashChanges : M (option error) :=
  timestamp <- Now ;;
  let stashName := "nomi-stash-" ++ timestamp in
  out <- Exec (gitStashPush stashName) ;;
  match out with
  | inl err => ret (Some ("failed to stash changes: " ++ err))
  | inr result =>
      if negb (Success result) then
        if negb (String.eqb (Error result) EmptyString) then
          ret (Some ("failed to stash changes: " ++ Error result))
        else if negb (String.eqb (Output result) EmptyString) then
          ret (Some ("failed to stash changes: " ++ Output result))
        else ret (Some "failed to stash changes and received no output")
      else
        (* Extract stash reference from the output *)
        let stashRef :=
          match Split (Output result) "010"%char with
          | [] => EmptyString
          | line0 :: _ =>
              match Split line0 ":"%char with
              | [] => EmptyString
              | part0 :: _ => TrimSpace part0
              end
          end in
        if String.eqb stashRef EmptyString then
          ret (Some "unable to retrieve stash reference")
        else ret None
  end.

Definition getStashDiff : M (string * option error) :=
  out <- Exec gitStashShow ;;
  match out with
  | inr result =>
      if Success result then ret (Output result, None)
      else ret (EmptyString, Some "failed to show stash diff")
  | inl _ => ret (EmptyString, Some "failed to show stash diff")
  end.

Definition unstashChanges : M (option error) :=
  out <- Exec gitStashApply ;;
  if failed out then ret (Some "failed to unstash changes")
  else
    out <- Exec gitReset ;;
    if failed out then ret (Some "failed to reset changes")
    else ret None.

Definition deleteStash : M (option error) :=
  out <- Exec gitStashDrop ;;
  if failed out then ret (Some "failed to delete stash")
  else ret None.

(** Patch should end with a newline: the [strings.HasSuffix] test and
    the [+=] at the head of the loop body. *)
Definition ensureNewline (patch : string) : string :=
  if negb (HasSuffix patch nl) then patch ++ nl else patch.

(** The body of [for i, a := range plan.CommitPlan] (lines 122 to 177) for
    one action: what it appends to [errors]. *)
Definition applyAction (i : nat) (a : action) : M (list error) :=
  let patch := ensureNewline (Patch a) in
  out <- Exec (gitApply patch) ;;
  match out with
  | inl err => ret ["failed to apply patch " ++ itoa i ++ ": " ++ err]
  | inr result =>
      if negb (Success result) then
        ret ["failed to apply patch " ++ itoa i ++ ": " ++ Error result]
      else
        out <- Exec (gitCommit (CommitMessage a)) ;;
        match out with
        | inl err => ret ["failed to commit changes " ++ itoa i ++ ": " ++ err]
        | inr result =>
            if negb (Success result) then
              ret ["failed to commit changes " ++ itoa i ++ ": " ++ Error result]
            else
              log LInfo ("Committed " ++ CommitMessage a) ;;;
              ret []
        end
  end.

(** [for i, a := range plan.CommitPlan], from index [i] on, with the
    [errors] slice built so far. *)
Fixpoint applyActions (i : nat) (actions : list action) (errors : list error)
  : M (list error) :=
  match actions with
  | [] => ret errors
  | a :: rest =>
      errs <- applyAction i a ;;
      applyActions (S i) rest (errors ++ errs)%list
  end.

(** [for _, a := range plan.CommitPlan { logger.Println(...) }] (lines 102
    to 104). *)
Fixpoint printPlan (actions : list action) : M unit :=
  match actions with
  | [] => ret tt
  | a :: rest => log LPrintln (tab ++ CommitMessage a) ;;; printPlan rest
  end.

(** The [for { select { ... } }] loop of [OnStart] (lines 84 to 181);
    [fuel] bounds the number of rounds. The plan is a variable of the loop
    body: each round decodes its own. The [errors] slice is built and the
    function returns nil. *)
Fixpoint negotiate (fuel : nat) : M Outcome :=
  match fuel with
  | 0 => ret OutOfFuel
  | S fuel' =>
      cancelled <- Done ;;
      if cancelled then ret (Returned (Some "context cancelled"))
      else
        log LInfo "Creating commit plan" ;;;
        out <- Do ;;
        match out with
        | inl err => ret (Returned (Some ("failed to convert text to JSON: " ++ err)))
        | inr resp =>
            log LDebug ("Raw Commit plan: " ++ resp) ;;;
            match json_Unmarshal resp with
            | inl err =>
                ret (Returned (Some ("failed to unmarshal commit plan: " ++ err)))
            | inr plan =>
                log LPrintln "Commit Plan:" ;;;
                printPlan (CommitPlan plan) ;;;
                accepted <- SelectBool "Do you want to commit these changes?" true ;;
                if negb accepted then
                  newInstructions <- Read ">>> " ;;
                  AddMessage (NewMessage RoleUser newInstructions) ;;;
                  negotiate fuel'
                else
                  errors <- applyActions 0 (CommitPlan plan) [] ;;
                  ret (Returned None)
            end
        end
  end.

(** [OnStart] from the point where the release has been deferred (lines 68
    to 182). *)
Definition planAndCommit (fuel : nat) : M Outcome :=
  log LInfo "Getting stash diff" ;;;
  r <- getStashDiff ;;
  match r with
  | (_, Some err) => ret (Returned (Some ("failed to get stash diff: " ++ err)))
  | (buffer, None) =>
      log LDebug ("Stash diff: " ++ buffer) ;;;
      if String.eqb buffer EmptyString then
        log LInfo "No changes to commit" ;;;
        ret (Returned None)
      else
        AddMessage (NewMessage RoleUser buffer) ;;;
        negotiate fuel
  end.

(** The deferred function (lines 61 to 66): it runs when [OnStart] returns
    and, the result of [OnStart] being unnamed, cannot change the value
    being returned. *)
Definition deferred : M unit :=
  err <- deleteStash ;;
  match err with
  | Some e => log LError ("Failed to delete stash: " ++ e)
  | None => ret tt
  end.

(** [OnStart] (lines 30 to 182). The [defer] statement comes after the
    repository check, the capture and the replay: the three early returns
    leave without the deferred call. *)
Definition OnStart (fuel : nat) : M Outcome :=
  log LInfo "Starting commit usecase" ;;;
  AddMessage (NewMessage RoleSystem agentPrompt) ;;;
  err <- checkGitRepository ;;
  match err with
  | Some e => ret (Returned (Some ("not a git repository: " ++ e)))
  | None =>
      log LInfo "Stashing changes" ;;;
      err <- stashChanges ;;
      match err with
      | Some e => ret (Returned (Some ("failed to stash changes: " ++ e)))
      | None =>
          (* Unstash changes directly so you can continue working on the changes *)
          err <- unstashChanges ;;
          match err with
          | Some e => ret (Returned (Some ("failed to unstash changes: " ++ e)))
          | None =>
              out <- planAndCommit fuel ;;
              match out with
              | Returned r => deferred ;;; ret (Returned r)
              | OutOfFuel => ret OutOfFuel
              end
          end
      end
  end.

End Workflow.

Arguments mkState {E} _ _.
Arguments world {E} _.
Arguments conversation {E} _.
Arguments bind {E A B} _ _ _.
Arguments ret {E A} _ _.

(** ** Projections of an event list *)

Definition execOf (ev : Event) : list Command :=
  match ev with EvExec cmd _ => [cmd] | _ => [] end.

Definition generateOf (ev : Event) : list (Conversation * (error + string)) :=
  match ev with EvGenerate c out => [(c, out)] | _ => [] end.

(** The commands handed to the console, in order. *)
Definition execs (evs : list Event) : list Command := flat_map execOf evs.

(** The backend requests (transcript and reply), in order. *)
Definition generates (evs : list Event) : list (Conversation * (error + string)) :=
  flat_map generateOf evs.

Fixpoint sameArgs (l1 l2 : list string) : bool :=
  match l1, l2 with
  | [], [] => true
  | a :: l1', b :: l2' => String.eqb a b && sameArgs l1' l2'
  | _, _ => false
  end.

(** The release: the stash-drop invocation. *)
Definition isStashDrop (cmd : Command) : bool :=
  String.eqb (Name cmd) "git" && sameArgs (Args cmd) ["stash"; "drop"; "stash@{0}"].

Definition isGitSub (sub : string) (cmd : Command) : bool :=
  String.eqb (Name cmd) "git" &&
  match Args cmd with a :: _ => String.eqb a sub | [] => false end.

(** A patch-apply invocation, a commit invocation. *)
Definition isApply : Command -> bool := isGitSub "apply".
Definition isCommit : Command -> bool := isGitSub "commit".

(** ** A scripted world

    A fake set of collaborators for running the workflow on concrete
    inputs: the console answers each command by a fixed function, the
    backend, the selector and the input area read their answers off
    lists, and the context is cancelled after a given number of polls. *)

Module Fake.

Record world := mk {
  respond : Command -> error + Result;
  replies : list (error + string);
  answers : list bool;
  lines : list string;
  polls : nat
}.

Definition exec (cmd : Command) (w : world) : (error + Result) * world :=
  (respond w cmd, w).

(** The backend also appends its reply to the shared conversation. *)
Definition generate (c : Conversation) (w : world)
  : (error + string) * Conversation * world :=
  match replies w with
  | [] => (inl "backend unavailable", c, w)
  | r :: rs =>
      (r,
       match r with
       | inr resp => (c ++ [NewMessage RoleAssistant resp])%list
       | inl _ => c
       end,
       mk (respond w) rs (answers w) (lines w) (polls w))
  end.

Definition select (_ : string) (default : bool) (w : world) : bool * world :=
  match answers w with
  | [] => (default, w)
  | b :: bs => (b, mk (respond w) (replies w) bs (lines w) (polls w))
  end.

Definition read (_ : string) (w : world) : string * world :=
  match lines w with
  | [] => (EmptyString, w)
  | l :: ls => (l, mk (respond w) (replies w) (answers w) ls (polls w))
  end.

Definition done (w : world) : bool * world :=
  match polls w with
  | 0 => (true, w)
  | S n => (false, mk (respond w) (replies w) (answers w) (lines w) n)
  end.

Definition now (w : world) : string * world := ("20241105T093000", w).

Definition collaborators : Collaborators :=
  Build_Collaborators world exec generate select read done now.

(** A console on which every command succeeds, [git stash push] and
    [git stash show] with the given outputs, except the commands for
    which [bad] holds, which report non-success with [stderr]. *)
Definition console (saved diff : string) (bad : Command -> bool) (stderr : string)
    (cmd : Command) : error + Result :=
  if bad cmd then inr (mkResult false EmptyString stderr)
  else if isGitSub "stash" cmd then
    match Args cmd with
    | _ :: "push" :: _ => inr (mkResult true saved EmptyString)
    | _ :: "show" :: _ => inr (mkResult true diff EmptyString)
    | _ => inr (mkResult true EmptyString EmptyString)
    end
  else inr (mkResult true EmptyString EmptyString).

Definition saved : string :=
  "Saved working directory and index state On main: nomi-stash-20241105T093000".

Definition noneBad (_ : Command) : bool := false.

Definition start (w : world) : State collaborators := mkState (E:=collaborators) w [].

(** The wire format of a plan whose strings need no escaping. *)
Definition field (k v : string) : string := dq ++ k ++ dq ++ ": " ++ dq ++ v ++ dq.

Definition encodeAction (a : action) : string :=
  "{" ++ field "filePath" (FilePath a) ++ ", " ++ field "patch" (Patch a) ++ ", "
      ++ field "commitMessage" (CommitMessage a) ++ "}".

Definition encode (p : commitPlan) : string :=
  "{" ++ dq ++ "commitPlan" ++ dq ++ ": [" ++
  String.concat ", " (map encodeAction (CommitPlan p)) ++ "]}".

(** A decoder that knows the plans of [known] (and the empty object) and
    rejects every other text. *)
Fixpoint decode (known : list commitPlan) (resp : string) : error + commitPlan :=
  match known with
  | [] => if String.eqb resp "{}" then inr (mkCommitPlan [])
          else inl "invalid character"
  | p :: ps => if String.eqb resp (encode p) then inr p else decode ps resp
  end.

End Fake.

(** ** A console that keeps a repository

    A second fake console, for the steps that move changes between the
    working tree, the index and the stash. It follows the manual pages of
    the four commands the snapshot steps issue, on a repository reduced to
    the paths that carry changes: [git stash push --include-untracked]
    saves the staged and the unstaged (and untracked) changes and leaves a
    clean tree, or saves nothing when there is no change; [git stash apply]
    without [--index] brings the saved changes back into the working tree
    only; [git reset] makes the index equal to HEAD, so what was staged is
    a working-tree change afterwards; [git stash drop] removes the most
    recent entry. *)

Module GitSim.

Record repo := mk {
  staged : list string;
  unstaged : list string;
  stash : list (list string * list string)
}.

Definition ok (output : string) : error + Result := inr (mkResult true output EmptyString).
Definition ko (stderr : string) : error + Result := inr (mkResult false EmptyString stderr).

Definition clean (r : repo) : bool :=
  match staged r, unstaged r with
  | [], [] => true
  | _, _ => false
  end.

Definition exec (cmd : Command) (r : repo) : (error + Result) * repo :=
  match Args cmd with
  | "stash" :: "push" :: _ =>
      if clean r then (ok "No local changes to save", r)
      else (ok "Saved working directory and index state On main: nomi-stash",
            mk [] [] ((staged r, unstaged r) :: stash r))
  | "stash" :: "apply" :: _ =>
      match stash r with
      | [] => (ko "error: stash@{0} is not a valid reference", r)
      | (i, w) :: _ => (ok EmptyString, mk (staged r) (unstaged r ++ i ++ w)%list (stash r))
      end
  | "reset" :: _ =>
      (ok EmptyString, mk [] (staged r ++ unstaged r)%list (stash r))
  | "stash" :: "drop" :: _ =>
      match stash r with
      | [] => (ko "error: stash@{0} is not a valid reference", r)
      | _ :: rest => (ok EmptyString, mk (staged r) (unstaged r) rest)
      end
  | _ => (ok EmptyString, r)
  end.

Definition collaborators : Collaborators :=
  Build_Collaborators repo exec
    (fun c r => (inl "no backend", c, r))
    (fun _ default r => (default, r))
    (fun _ r => (EmptyString, r))
    (fun r => (false, r))
    (fun r => ("20241105T093000", r)).

Definition start (r : repo) : State collaborators := mkState (E:=collaborators) r [].

End GitSim.

(** ** Sample runs *)

Module Sample.

Definition a1 : action :=
  mkAction "parser/lex.go" "diff --git a/parser/lex.go b/parser/lex.go"
    "feat(parser): add lexer".
Definition a2 : action :=
  mkAction "parser/ast.go" "diff --git a/parser/ast.go b/parser/ast.go"
    "fix(parser): keep node positions".
Definition a3 : action :=
  mkAction "README.md" "diff --git a/README.md b/README.md" "docs: describe the parser".

Definition plan3 : commitPlan := mkCommitPlan [a1; a2; a3].
Definition plan1 : commitPlan := mkCommitPlan [a1].

Definition decode : string -> error + commitPlan := Fake.decode [plan3; plan1].

Definition diff : string := "diff --git a/parser/lex.go b/parser/lex.go".
Definition refinement : string := "focus only on the parser changes".

Definition inputIs (patch : string) (cmd : Command) : bool :=
  match Input cmd with
  | Some i => String.eqb i patch
  | None => false
  end.

(** The patch of [a2] does not apply. *)
Definition secondFails (cmd : Command) : bool :=
  isApply cmd && inputIs (Patch a2 ++ nl) cmd.

Definition scene (saved diff : string) (bad : Command -> bool) (stderr : string)
    (replies : list (error + string)) (answers : list bool) (lines : list string)
    (polls : nat) : State Fake.collaborators :=
  Fake.start (Fake.mk (Fake.console saved diff bad stderr) replies answers lines polls).

(** Not inside a work tree. *)
Definition notARepository : State Fake.collaborators :=
  scene Fake.saved diff (isGitSub "rev-parse") "fatal: not a git repository" [] [] [] 3.

(** The capture fails and says why on stderr. *)
Definition captureFails : State Fake.collaborators :=
  scene Fake.saved diff (isGitSub "stash") "fatal: unable to write new index file" [] [] [] 3.

(** The capture succeeds, the replay does not. *)
Definition replayFails : State Fake.collaborators :=
  scene Fake.saved diff (fun cmd => sameArgs (Args cmd) ["stash"; "apply"; "stash@{0}"])
    "error: could not restore untracked files from stash" [] [] [] 3.

(** The diff cannot be shown. *)
Definition diffFails : State Fake.collaborators :=
  scene Fake.saved diff (fun cmd => sameArgs (Args cmd) (Args gitStashShow))
    "fatal: bad revision" [] [] [] 3.

(** The capture succeeds and prints nothing. *)
Definition captureSilent : State Fake.collaborators :=
  scene EmptyString diff Fake.noneBad EmptyString [] [] [] 3.

(** Nothing to commit. *)
Definition emptyDiff : State Fake.collaborators :=
  scene Fake.saved EmptyString Fake.noneBad EmptyString [] [] [] 3.

(** The plan of three actions is accepted; the second patch does not apply. *)
Definition secondPatchFails : State Fake.collaborators :=
  scene Fake.saved diff secondFails "error: patch failed"
    [inr (Fake.encode plan3)] [true] [] 3.

(** The backend answers with something that is no JSON. *)
Definition malformedReply : State Fake.collaborators :=
  scene Fake.saved diff Fake.noneBad EmptyString [inr "Sure, here is the plan"] [] [] 3.

(** The plan is rejected, and the context is cancelled before the next round. *)
Definition rejectedThenCancelled : State Fake.collaborators :=
  scene Fake.saved diff Fake.noneBad EmptyString
    [inr (Fake.encode plan3); inr (Fake.encode plan1)] [false; true] [refinement] 1.

(** The plan is rejected, and the next one is accepted. *)
Definition rejectedThenAccepted : State Fake.collaborators :=
  scene Fake.saved diff Fake.noneBad EmptyString
    [inr (Fake.encode plan3); inr (Fake.encode plan1)] [false; true] [refinement] 3.

(** The negotiation loop of the run above, at its first round and after
    each call of that round: the context is polled, the backend answers,
    the user rejects, the refinement is read. *)
Definition round (replies : list (error + string)) (answers : list bool)
    (lines : list string) (polls : nat) : Fake.world :=
  Fake.mk (Fake.console Fake.saved diff Fake.noneBad EmptyString) replies answers lines polls.

Definition transcript : Conversation :=
  [NewMessage RoleSystem agentPrompt; NewMessage RoleUser diff].

Definition replied : Conversation :=
  (transcript ++ [NewMessage RoleAssistant (Fake.encode plan3)])%list.

Definition atLoop : State Fake.collaborators :=
  mkState (E:=Fake.collaborators)
    (round [inr (Fake.encode plan3); inr (Fake.encode plan1)] [false; true] [refinement] 3)
    transcript.

Definition polled : Fake.world :=
  round [inr (Fake.encode plan3); inr (Fake.encode plan1)] [false; true] [refinement] 2.
Definition answered : Fake.world :=
  round [inr (Fake.encode plan1)] [false; true] [refinement] 2.
Definition rejected : Fake.world := round [inr (Fake.encode plan1)] [true] [refinement] 2.
Definition refined : Fake.world := round [inr (Fake.encode plan1)] [true] [] 2.

(** A run of [OnStart] with at most three rounds. *)
Definition run (s : State Fake.collaborators)
  : Outcome * State Fake.collaborators * list Event :=
  OnStart Fake.collaborators decode 3 s.







End Sample.

(** ** Definitions used to state the properties *)

(** The text of [s] before the first [c] (all of [s] when there is none). *)
Fixpoint upTo (c : ascii) (s : string) : string :=
  match s with
  | EmptyString => EmptyString
  | String a s' => if Ascii.eqb a c then EmptyString else String a (upTo c s')
  end.

(** A string made of white-space runes only (the empty string is one). *)
Inductive WhitespaceOnly : string -> Prop :=
| ws_empty : WhitespaceOnly EmptyString
| ws_rune (r s : string) :
    In r spaceRunes -> WhitespaceOnly s -> WhitespaceOnly (r ++ s).

(** What [stashChanges] returns, read off the outcome of its command. *)
Definition stashVerdict (out : error + Result) : option error :=
  match out with
  | inl err => Some ("failed to stash changes: " ++ err)
  | inr result =>
      if Success result then
        if String.eqb (TrimSpace (upTo ":" (upTo "010" (Output result)))) EmptyString
        then Some "unable to retrieve stash reference"
        else None
      else if negb (String.eqb (Error result) EmptyString)
           then Some ("failed to stash changes: " ++ Error result)
      else if negb (String.eqb (Output result) EmptyString)
           then Some ("failed to stash changes: " ++ Output result)
      else Some "failed to stash changes and received no output"
  end.

(** The text an apply or commit error carries after the ordinal: the
    wrapped error, or the command's stderr. *)
Definition detail (out : error + Result) : string :=
  match out with
  | inl err => err
  | inr result => Error result
  end.

(** The error recorded when the patch-apply of the action at index [i] fails. *)
Definition applyError (i : nat) (out : error + Result) : error :=
  "failed to apply patch " ++ itoa i ++ ": " ++ detail out.

(** The events of a given kind. *)
Definition isDropEv (ev : Event) : bool :=
  match ev with EvExec cmd _ => isStashDrop cmd | _ => false end.

(** How often the release (the stash-drop invocation) was issued. *)
Definition releases (evs : list Event) : nat := List.length (filter isDropEv evs).

(** An event of the executor: a patch-apply or commit invocation, or a log line. *)
Definition executorEvent (ev : Event) : Prop :=
  match ev with
  | EvExec cmd _ => isApply cmd || isCommit cmd = true
  | EvLog _ _ => True
  | _ => False
  end.

(** An event of a negotiation round or of the executor: no command other
    than patch-apply and commit. *)
Definition planningEvent (ev : Event) : Prop :=
  match ev with
  | EvExec cmd _ => isApply cmd || isCommit cmd = true
  | _ => True
  end.

(** Every event a computation emits, from whatever state, satisfies [P]. *)
Definition Emits {E : Collaborators} {A : Type} (P : Event -> Prop) (m : M E A) : Prop :=
  forall s, Forall P (snd (m s)).

Definition question : string := "Do you want to commit these changes?".

(** The events of a negotiation round up to the question put to the user:
    the request with its transcript, and the plan's commit messages. *)
Definition proposal (transcript : Conversation) (resp : string) (plan : commitPlan)
  : list Event :=
  [EvLog LInfo "Creating commit plan";
   EvGenerate transcript (inr resp);
   EvLog LDebug ("Raw Commit plan: " ++ resp);
   EvLog LPrintln "Commit Plan:"]
  ++ map (fun a => EvLog LPrintln (tab ++ CommitMessage a)) (CommitPlan plan).

(** The steps of [OnStart] before the release is deferred (repository
    check, capture, replay), with the error [OnStart] returns when one of
    them fails. *)
Definition snapshot (E : Collaborators) : M E (option error) :=
  bind (log E LInfo "Starting commit usecase") (fun _ =>
  bind (AddMessage E (NewMessage RoleSystem agentPrompt)) (fun _ =>
  bind (checkGitRepository E) (fun err =>
  match err with
  | Some e => ret (Some ("not a git repository: " ++ e))
  | None =>
      bind (log E LInfo "Stashing changes") (fun _ =>
      bind (stashChanges E) (fun err =>
      match err with
      | Some e => ret (Some ("failed to stash changes: " ++ e))
      | None =>
          bind (unstashChanges E) (fun err =>
          match err with
          | Some e => ret (Some ("failed to unstash changes: " ++ e))
          | None => ret None
          end)
      end))
  end))).

(** The run from [s] gets as far as the [defer] statement. *)
Definition reachesDefer {E : Collaborators} (s : State E) : bool :=
  match fst (fst (snapshot E s)) with
  | None => true
  | Some _ => false
  end.

Definition notRelease (ev : Event) : Prop := isDropEv ev = false.

(** An event other than the diff extraction. *)
Definition notShow (ev : Event) : Prop :=
  match ev with
  | EvExec cmd _ => cmd <> gitStashShow
  | _ => True
  end.

(** The capture, restore and release commands: [git stash push], [git
    stash apply] with [git reset], and [git stash drop]. *)
Definition captureRestoreRelease (cmd : Command) : bool :=
  String.eqb (Name cmd) "git" &&
  match Args cmd with
  | ["stash"; "push"; "--include-untracked"; "--message"; _] => true
  | ["stash"; "apply"; "stash@{0}"] => true
  | ["reset"] => true
  | ["stash"; "drop"; "stash@{0}"] => true
  | _ => false
  end.

(** An event of the snapshot, diff and release steps: no backend request,
    no patch-apply and no commit. *)
Definition quietEvent (ev : Event) : Prop :=
  match ev with
  | EvExec cmd _ => isApply cmd || isCommit cmd = false
  | EvGenerate _ _ => False
  | _ => True
  end.

(** ** Definitions used to state further properties *)

(** An event before any plan has been accepted: no patch-apply, no commit,
    and no accepting answer of the user. *)
Definition idleEvent (ev : Event) : Prop :=
  match ev with
  | EvExec cmd _ => isApply cmd || isCommit cmd = false
  | EvSelect _ _ answer => answer = false
  | _ => True
  end.

(** A patch-apply or commit invocation. *)
Definition changesHistory (ev : Event) : Prop :=
  match ev with
  | EvExec cmd _ => isApply cmd || isCommit cmd = true
  | _ => False
  end.

(** The confirmation logged for an action that was applied and committed. *)
Definition isConfirmation (ev : Event) : bool :=
  match ev with
  | EvLog LInfo msg =>
      match stripPrefix "Committed " msg with
      | Some _ => true
      | None => false
      end
  | _ => false
  end.

Definition confirmations (evs : list Event) : nat :=
  List.length (filter isConfirmation evs).

(** The error recorded when the commit of the action at index [i] fails. *)
Definition commitError (i : nat) (out : error + Result) : error :=
  "failed to commit changes " ++ itoa i ++ ": " ++ detail out.

(** ** More sample runs *)

Module Scenes.

Definition messageIs (message : string) (cmd : Command) : bool :=
  sameArgs (Args cmd) ["commit"; "--message"; message].

(** The plan of three actions is accepted; the second patch applies and its
    commit is refused. *)
Definition secondCommitFails : State Fake.collaborators :=
  Sample.scene Fake.saved Sample.diff (messageIs (CommitMessage Sample.a2))
    "error: gpg failed to sign the data"
    [inr (Fake.encode Sample.plan3)] [true] [] 3.

(** The plan of one action is accepted and committed; the stash cannot be
    dropped afterwards. *)
Definition dropFails : State Fake.collaborators :=
  Sample.scene Fake.saved Sample.diff (fun cmd => isStashDrop cmd)
    "error: could not drop stash entry"
    [inr (Fake.encode Sample.plan1)] [true] [] 3.

(** Collaborators that never let the loop end: the context is never
    cancelled, the backend always proposes the empty plan, and the user
    always rejects it and asks for more. *)
Definition stubborn : Collaborators :=
  Build_Collaborators unit
    (fun _ w => (inr (mkResult true EmptyString EmptyString), w))
    (fun c w => (inr "{}", (c ++ [NewMessage RoleAssistant "{}"])%list, w))
    (fun _ _ w => (false, w))
    (fun _ w => ("smaller commits", w))
    (fun w => (false, w))
    (fun w => ("20241105T093000", w)).

End Scenes.

(** The events of the deferred release, given the outcome of the stash
    drop. *)
Definition releaseEvents (out : error + Result) : list Event :=
  EvExec gitStashDrop out ::
  if failed out then [EvLog LError "Failed to delete stash: failed to delete stash"]
  else [].

(** The last event before a cancellation is noticed: the loop is at its
    top, so the diff has just been logged or a refinement has just been
    read. *)
Definition atLoopTop (ev : Event) : Prop :=
  (exists buffer, ev = EvLog LDebug ("Stash diff: " ++ buffer)) \/
  (exists text, ev = EvRead ">>> " text).

(** The events [evs] of a run end with a step that failed, and [e] is the
    error [OnStart] makes of that failure. Before the release is deferred
    the failed command is the last event, and the commands before it are
    those of the steps before; afterwards the failed step is followed by
    the release alone. A cancellation leaves no event of its own: the run
    stops at the top of the loop. *)
Definition failedStep (json_Unmarshal : string -> error + commitPlan)
    (evs : list Event) (e : error) : Prop :=
  exists pre : list Event,
    (exists out,
       evs = (pre ++ [EvExec gitRevParse out])%list /\
       execs pre = [] /\ failed out = true /\
       e = "not a git repository: not a git repository") \/
    (exists name out err,
       evs = (pre ++ [EvExec (gitStashPush name) out])%list /\
       execs pre = [gitRevParse] /\ stashVerdict out = Some err /\
       e = "failed to stash changes: " ++ err) \/
    (exists name out,
       evs = (pre ++ [EvExec gitStashApply out])%list /\
       execs pre = [gitRevParse; gitStashPush name] /\ failed out = true /\
       e = "failed to unstash changes: failed to unstash changes") \/
    (exists name out,
       evs = (pre ++ [EvExec gitReset out])%list /\
       execs pre = [gitRevParse; gitStashPush name; gitStashApply] /\
       failed out = true /\
       e = "failed to unstash changes: failed to reset changes") \/
    (exists out drop,
       evs = (pre ++ EvExec gitStashShow out :: releaseEvents drop)%list /\
       failed out = true /\
       e = "failed to get stash diff: failed to show stash diff") \/
    (exists last drop,
       evs = (pre ++ last :: releaseEvents drop)%list /\
       atLoopTop last /\
       e = "context cancelled") \/
    (exists transcript err drop,
       evs = (pre ++ EvGenerate transcript (inl err) :: releaseEvents drop)%list /\
       e = "failed to convert text to JSON: " ++ err) \/
    (exists transcript resp err drop,
       evs = (pre ++ EvGenerate transcript (inr resp)
                  :: EvLog LDebug ("Raw Commit plan: " ++ resp)
                  :: releaseEvents drop)%list /\
       json_Unmarshal resp = inl err /\
       e = "failed to unmarshal commit plan: " ++ err).

(** ** The scroll-back buffer ([internal/term/screenbuf.go]) *)

Module Term.

(** The escape character that starts a terminal control sequence. *)
Definition esc : string := bytes [27].

(** Go's [int], 64 bits wide: the value of an integer expression after
    wrap-around. *)
Definition wrap (z : Z) : Z := ((z + 2 ^ 63) mod 2 ^ 64 - 2 ^ 63)%Z.

(** [fmt.Sprint] of an int. *)
Definition Sprint (z : Z) : string := NilZero.string_of_int (Z.to_int z).

(** [strings.Join]. *)
Definition Join (elems : list string) (sep : string) : string := String.concat sep elems.

(** The writer is kept as the list of what has been written to it, one
    entry for each call. *)
Record ScreenBuf := mkScreenBuf {
  writer : list string;
  lines : list string;
  height : Z
}.

Definition Fprint (sb : ScreenBuf) (s : string) : ScreenBuf :=
  mkScreenBuf (writer sb ++ [s])%list (lines sb) (height sb).

Definition Fprintln (sb : ScreenBuf) (s : string) : ScreenBuf := Fprint sb (s ++ nl).

(** [NewScreenBuf]; [size] is the height [term.GetSize] reports for the
    terminal of stdout, [None] when it returns an error. The capacity given
    to [make] does not show in the model. *)
Definition NewScreenBuf (w : list string) (size : option Z) : ScreenBuf :=
  let height := match size with
                | Some h => h
                | None => 24%Z (* fallback to a common terminal height *)
                end in
  (* Subtract 2 from the height to account for the prompt and the input line *)
  let height := wrap (height - 2) in
  let height := if (height <? 1)%Z then 1%Z else height in
  mkScreenBuf w [] height.

(** [copy(dst, src)]: the elements of [dst] afterwards. *)
Definition copy (dst src : list string) : list string :=
  let n := Nat.min (List.length dst) (List.length src) in
  (firstn n src ++ skipn n dst)%list.

(** [l[1:]]; [None] when the bounds are out of range (the program panics). *)
Definition from1 (l : list string) : option (list string) :=
  match l with
  | [] => None
  | _ :: rest => Some rest
  end.

(** [l[i] = v]; [None] when the index is out of range (the program panics). *)
Definition setIndex (l : list string) (i : Z) (v : string) : option (list string) :=
  if ((0 <=? i) && (i <? Z.of_nat (List.length l)))%Z
  then Some (firstn (Z.to_nat i) l ++ v :: skipn (S (Z.to_nat i)) l)%list
  else None.

(** [WriteLine]; [None] when the call panics. *)
Definition WriteLine (sb : ScreenBuf) (s : string) : option ScreenBuf :=
  if (Z.of_nat (List.length (lines sb)) =? height sb)%Z then
    (* Buffer is full, scroll up *)
    let sb := Fprint sb (esc ++ "[H") in (* Move cursor to top-left corner *)
    let sb := Fprint sb (esc ++ "[M") in (* Delete the top line *)
    let sb := Fprint sb (esc ++ "[" ++ Sprint (wrap (height sb - 1)) ++ ";1H") in
                                          (* Move cursor to last line *)
    let sb := Fprint sb s in (* Write the new line *)
    (* Update our buffer *)
    match from1 (lines sb) with
    | None => None
    | Some src =>
        match setIndex (copy (lines sb) src) (wrap (height sb - 1)) s with
        | None => None
        | Some l => Some (mkScreenBuf (writer sb) l (height sb))
        end
    end
  else
    (* Buffer is not full yet, just append *)
    Some (Fprintln (mkScreenBuf (writer sb) (lines sb ++ [s])%list (height sb)) s).

Definition Clear (sb : ScreenBuf) : ScreenBuf :=
  let sb := Fprint sb (esc ++ "[H") in (* Move cursor to top-left corner *)
  let sb := Fprint sb (esc ++ "[J") in (* Clear screen from cursor down *)
  mkScreenBuf (writer sb) [] (height sb).

(** The method [String]. *)
Definition String_ (sb : ScreenBuf) : string := Join (lines sb) nl.

(** [WriteLine] for each line of a list, in order. *)
Fixpoint WriteLines (sb : ScreenBuf) (l : list string) : option ScreenBuf :=
  match l with
  | [] => Some sb
  | s :: rest =>
      match WriteLine sb s with
      | Some sb' => WriteLines sb' rest
      | None => None
      end
  end.

(** The last [n] elements of a list (all of it when it has fewer). *)
Definition lastN {A} (n : nat) (l : list A) : list A := skipn (List.length l - n) l.

(** A buffer as [NewScreenBuf] makes them and [WriteLine] and [Clear] keep
    them: a height between 1 and the largest int, and no more lines than
    the height. *)
Definition wellFormed (sb : ScreenBuf) : Prop :=
  (1 <= height sb <= 2 ^ 63 - 1)%Z /\ (Z.of_nat (List.length (lines sb)) <= height sb)%Z.

(** The control sequences a scroll writes before the line itself. *)
Definition scroll (h : Z) : list string :=
  [esc ++ "[H"; esc ++ "[M"; esc ++ "[" ++ Sprint (h - 1) ++ ";1H"].

(** No byte of [s] is a line feed. *)
Fixpoint noNewline (s : string) : bool :=
  match s with
  | EmptyString => true
  | String c s' => negb (Ascii.eqb c "010") && noNewline s'
  end.

End Term.

(** ** Loading a text-to-text provider ([LoadTextToTextProvider])

    The function only has its control flow in the sources: the provider
    type and its constants, the three provider packages, the helpers that
    look for, start and download Ollama, the program directory and the
    retry library are elsewhere. They are taken as parameters, the ones
    with effects as transitions of an environment. *)

Module Providers.

Record Deps := {
  (** The type [AIProvider], Go's [==] on it, its four constants, and what
      the [%s] verb prints for a value of it. *)
  AIProvider : Type;
  same : AIProvider -> AIProvider -> bool;
  OpenAIProvider : AIProvider;
  OllamaProvider : AIProvider;
  OpenRouterProvider : AIProvider;
  AnthropicProvider : AIProvider;
  text : AIProvider -> string;
  (** [baseprovider.TextToTextProvider] and [*exec.Cmd] ([None] is nil). *)
  Provider : Type;
  Cmd : Type;
  Env : Type;
  Getenv : string -> Env -> string * Env;
  (** [NewOAIProviderConfig] then [openaiprovider.NewTextToTextProvider],
      from the key and the model. *)
  newOpenAI : string -> string -> Env -> (error + Provider) * Env;
  ollamaServerIsRunning : Env -> bool * Env;
  tryStartOllama : Env -> (option Cmd * option error) * Env;
  GetProgramDirectory : Env -> string * Env;
  (** [backoff.Retry] of an operation, with the constant back-off of one
      second and at most three retries. *)
  Retry : (Env -> option error * Env) -> Env -> option error * Env;
  Printf : string -> Env -> Env;
  downloadOllama : string -> Env -> option error * Env;
  getOllamaURL : Env -> string * Env;
  (** [NewOlamaProviderConfig] then [ollamaprovider.NewTextToTextProvider],
      from the URL, the model and the command. *)
  newOllama : string -> string -> option Cmd -> Env -> (error + Provider) * Env;
  (** [NewORProviderConfig] then [openrouterprovider.NewTextToTextProvider]. *)
  newOpenRouter : string -> string -> Env -> (error + Provider) * Env
}.

Section Load.

Variable D : Deps.

(** The operation handed to [backoff.Retry]. *)
Definition download (ollamaOutput : string) (w : Env D) : option error * Env D :=
  let w := Printf D ("Download ollama to " ++ ollamaOutput ++ nl) w in
  downloadOllama D ollamaOutput w.

(** The [if !ollamaServerIsRunning()] block: the command to hand to the
    provider, and the error of the installation if there is one. *)
Definition ensureOllama (w : Env D) : option (Cmd D) * option error * Env D :=
  let '(running, w) := ollamaServerIsRunning D w in
  if negb running then
    let '((cmd, err), w) := tryStartOllama D w in
    match err with
    | Some _ =>
        let '(dir, w) := GetProgramDirectory D w in
        let ollamaOutput := dir ++ "/ollama" in
        let '(err, w) := Retry D (download ollamaOutput) w in
        (cmd, err, w)
    | None => (cmd, None, w)
    end
  else (None, None, w).

Definition LoadTextToTextProvider (provider : AIProvider D) (model : string) (w : Env D)
  : (error + Provider D) * Env D :=
  if same D provider (OpenAIProvider D) then
    let '(key, w) := Getenv D "OPENAI_API_KEY" w in
    let '(r, w) := newOpenAI D key model w in
    match r with
    | inl err => (inl ("error creating openai provider: " ++ err), w)
    | inr p => (inr p, w)
    end
  else if same D provider (OllamaProvider D) then
    let '(cmd, err, w) := ensureOllama w in
    match err with
    | Some err => (inl ("error installing ollama: " ++ err), w)
    | None =>
        let '(url, w) := getOllamaURL D w in
        let '(r, w) := newOllama D url model cmd w in
        match r with
        | inl err => (inl ("error creating ollama provider: " ++ err), w)
        | inr p => (inr p, w)
        end
    end
  else if same D provider (OpenRouterProvider D) then
    let '(key, w) := Getenv D "OPENROUTER_API_KEY" w in
    let '(r, w) := newOpenRouter D key model w in
    match r with
    | inl err => (inl ("error creating openrouter provider: " ++ err), w)
    | inr p => (inr p, w)
    end
  else if same D provider (AnthropicProvider D) then
    (inl "anthropic provider not implemented", w)
  else
    (inl ("unknown provider: " ++ text D provider), w).

(** What [LoadTextToTextProvider] returns for the result of a provider
    package: the provider, or its error under the name of the package. *)
Definition created (name : string) (r : error + Provider D) : error + Provider D :=
  match r with
  | inl err => inl ("error creating " ++ name ++ " provider: " ++ err)
  | inr p => inr p
  end.

End Load.

End Providers.

(** ** A sample environment for the provider loader *)

Module ProviderScenes.

(** An environment that says whether a server is running, whether Ollama
    can be started and whether the download works, and keeps a log of what
    was called. *)
Record env := mk {
  running : bool;
  startable : bool;
  downloadable : bool;
  calls : list string
}.

Definition note (call : string) (w : env) : env :=
  mk (running w) (startable w) (downloadable w) (calls w ++ [call])%list.

(** A retry that runs the operation until it succeeds, four times at most. *)
Fixpoint retry (n : nat) (op : env -> option error * env) (w : env) : option error * env :=
  match op w with
  | (None, w') => (None, w')
  | (Some e, w') =>
      match n with
      | 0 => (Some e, w')
      | S n' => retry n' op w'
      end
  end.

Definition deps : Providers.Deps :=
  Providers.Build_Deps string String.eqb "openai" "ollama" "openrouter" "anthropic"
    (fun p => p) string nat env
    (fun name w => ("secret", note ("getenv " ++ name) w))
    (fun key model w => (inr ("openai/" ++ model), note "new openai" w))
    (fun w => (running w, note "running?" w))
    (fun w => (if startable w then (Some 7, None)
               else (None, Some "exec: ollama: not found"),
               note "start" w))
    (fun w => ("/home/dev/.nomi", note "directory" w))
    (retry 3)
    (fun line w => note ("print " ++ line) w)
    (fun path w => (if downloadable w then None else Some "connection refused",
                    note ("download " ++ path) w))
    (fun w => ("http://localhost:11434", note "url" w))
    (fun url model cmd w =>
       (inr ("ollama/" ++ model),
        note (match cmd with Some _ => "new ollama, started" | None => "new ollama" end) w))
    (fun key model w => (inr ("openrouter/" ++ model), note "new openrouter" w)).

Definition served : env := mk true false false [].
Definition absent : env := mk false false true [].
Definition offline : env := mk false false false [].

End ProviderScenes.

(** * Properties *)

Example TrimSpace_example : TrimSpace (" " ++ tab ++ "stash " ++ bytes [194;160] ++ nl) = "stash".
Proof. reflexivity. Qed.
Example Split_example : Split "a:b::c" ":"%char = ["a"; "b"; EmptyString; "c"].
Proof. reflexivity. Qed.
Example HasSuffix_example : HasSuffix ("abc" ++ nl) nl = true /\ HasSuffix "abc" nl = false /\ HasSuffix EmptyString nl = false.
Proof. repeat split. Qed.

(** ** Facts about the string functions *)

Section StringFacts.

Lemma append_nil_r (s : string) : s ++ EmptyString = s.
Proof. induction s; simpl; congruence. Qed.

Lemma append_assoc (a b c : string) : (a ++ b) ++ c = a ++ (b ++ c).
Proof. induction a; simpl; congruence. Qed.

Lemma length_append (a b : string) :
  String.length (a ++ b) = String.length a + String.length b.
Proof. induction a; simpl; congruence. Qed.

Lemma stripPrefix_spec (p s r : string) :
  stripPrefix p s = Some r <-> s = p ++ r.
Proof.
  revert s; induction p as [|a p IH]; intros s; simpl.
  - split; congruence.
  - destruct s as [|b s]; [split; discriminate|].
    destruct (Ascii.eqb_spec a b) as [->|Hne].
    + rewrite IH. split; congruence.
    + split; [discriminate | congruence].
Qed.

Lemma stripSuffix_unfold (suf s : string) :
  stripSuffix suf s =
  if String.eqb s suf then Some EmptyString
  else match s with
       | EmptyString => None
       | String c s' => option_map (String c) (stripSuffix suf s')
       end.
Proof. destruct s; reflexivity. Qed.

Lemma stripSuffix_sound (suf s r : string) :
  stripSuffix suf s = Some r -> s = r ++ suf.
Proof.
  revert r; induction s as [|c s IH]; intros r; rewrite stripSuffix_unfold.
  - destruct (String.eqb_spec EmptyString suf) as [Heq|Hne]; [|discriminate].
    intros H; inversion H; subst; reflexivity.
  - destruct (String.eqb_spec (String c s) suf) as [Heq|Hne].
    + intros H; inversion H; subst; reflexivity.
    + destruct (stripSuffix suf s) as [r'|]; simpl; [|discriminate].
      intros H; inversion H; subst. simpl. f_equal. now apply IH.
Qed.

Lemma stripSuffix_complete (suf r : string) :
  stripSuffix suf (r ++ suf) = Some r.
Proof.
  induction r as [|c r IH]; rewrite stripSuffix_unfold.
  - simpl. now rewrite String.eqb_refl.
  - destruct (String.eqb_spec (String c r ++ suf) suf) as [Heq|_].
    + apply (f_equal String.length) in Heq. simpl in Heq.
      rewrite length_append in Heq. lia.
    + simpl. now rewrite IH.
Qed.

Lemma stripSuffix_spec (suf s r : string) :
  stripSuffix suf s = Some r <-> s = r ++ suf.
Proof.
  split; [apply stripSuffix_sound | intros ->; apply stripSuffix_complete].
Qed.

Lemma HasSuffix_spec (s suf : string) :
  HasSuffix s suf = true <-> exists r, s = r ++ suf.
Proof.
  unfold HasSuffix. split.
  - destruct (stripSuffix suf s) as [r|] eqn:H; [|discriminate].
    intros _. exists r. now apply stripSuffix_sound.
  - intros [r ->]. now rewrite stripSuffix_complete.
Qed.

End StringFacts.

Section TrimFacts.

Lemma Split_head (s : string) (c : ascii) :
  exists rest, Split s c = upTo c s :: rest.
Proof.
  induction s as [|a s [rest IH]]; simpl.
  - now exists [].
  - destruct (Ascii.eqb a c).
    + now exists (Split s c).
    + rewrite IH. now exists rest.
Qed.

Lemma firstSome_sound {A} (f : string -> option A) (l : list string) (x : A) :
  firstSome f l = Some x -> exists r, In r l /\ f r = Some x.
Proof.
  induction l as [|r l IH]; simpl; [discriminate|].
  destruct (f r) as [y|] eqn:Hr.
  - intros H; inversion H; subst. exists r. auto.
  - intros H. destruct (IH H) as (r' & Hin & Hf). exists r'. auto.
Qed.

Lemma dropSpace_sound (s rest : string) :
  dropSpace s = Some rest -> exists r, In r spaceRunes /\ s = r ++ rest.
Proof.
  intros H. apply firstSome_sound in H. destruct H as (r & Hin & Hr).
  exists r. split; [assumption|]. now apply stripPrefix_spec.
Qed.

Lemma dropLastSpace_sound (s rest : string) :
  dropLastSpace s = Some rest -> exists r, In r spaceRunes /\ s = rest ++ r.
Proof.
  intros H. apply firstSome_sound in H. destruct H as (r & Hin & Hr).
  exists r. split; [assumption|]. now apply stripSuffix_sound.
Qed.

(** No white-space rune is the beginning of another: the first table
    entry that matches is the rune itself. *)
Lemma dropSpace_complete (r s : string) :
  In r spaceRunes -> dropSpace (r ++ s) = Some s.
Proof.
  intros H. unfold spaceRunes in H. simpl in H.
  repeat (destruct H as [<-|H]; [reflexivity|]). contradiction.
Qed.

Lemma spaceRune_length (r : string) : In r spaceRunes -> 1 <= String.length r.
Proof.
  intros H. unfold spaceRunes in H. simpl in H.
  repeat (destruct H as [<-|H]; [simpl; lia|]). contradiction.
Qed.

Lemma ws_app (a b : string) :
  WhitespaceOnly a -> WhitespaceOnly b -> WhitespaceOnly (a ++ b).
Proof.
  induction 1 as [|r s Hr Hs IH]; intros Hb; simpl; [assumption|].
  rewrite append_assoc. apply ws_rune; auto.
Qed.

Lemma ws_no_rune (l : string) :
  WhitespaceOnly l -> dropSpace l = None -> l = EmptyString.
Proof.
  destruct 1 as [|r s Hr Hs]; [reflexivity|].
  rewrite dropSpace_complete by assumption. discriminate.
Qed.

Lemma trimLeft_empty_ws (n : nat) (s : string) :
  String.length s <= n -> trimLeft n s = EmptyString -> WhitespaceOnly s.
Proof.
  revert s; induction n as [|n IH]; intros s Hlen; simpl.
  - intros ->. constructor.
  - destruct (dropSpace s) as [rest|] eqn:Hd.
    + destruct (dropSpace_sound _ _ Hd) as (r & Hin & ->).
      intros H. apply ws_rune; [assumption|]. apply IH; [|assumption].
      pose proof (spaceRune_length _ Hin). rewrite length_append in Hlen. lia.
    + intros ->. constructor.
Qed.

Lemma ws_trimLeft_empty (s : string) :
  WhitespaceOnly s -> forall n, String.length s <= n -> trimLeft n s = EmptyString.
Proof.
  induction 1 as [|r s Hr Hs IH]; intros n Hlen.
  - destruct n; reflexivity.
  - pose proof (spaceRune_length _ Hr). rewrite length_append in Hlen.
    destruct n as [|n]; [lia|]. simpl.
    rewrite dropSpace_complete by assumption. apply IH. lia.
Qed.

Lemma trimLeft_done (n : nat) (s : string) :
  String.length s <= n -> dropSpace (trimLeft n s) = None.
Proof.
  revert s; induction n as [|n IH]; intros s Hlen; simpl.
  - destruct s; [reflexivity | simpl in Hlen; lia].
  - destruct (dropSpace s) as [rest|] eqn:Hd; [|assumption].
    destruct (dropSpace_sound _ _ Hd) as (r & Hin & ->).
    apply IH. pose proof (spaceRune_length _ Hin).
    rewrite length_append in Hlen. lia.
Qed.

Lemma trimRight_empty_ws (n : nat) (l : string) :
  String.length l <= n -> trimRight n l = EmptyString -> WhitespaceOnly l.
Proof.
  revert l; induction n as [|n IH]; intros l Hlen; simpl.
  - intros ->. constructor.
  - destruct (dropLastSpace l) as [rest|] eqn:Hd.
    + destruct (dropLastSpace_sound _ _ Hd) as (r & Hin & ->).
      intros H. apply ws_app.
      * apply IH; [|assumption].
        pose proof (spaceRune_length _ Hin). rewrite length_append in Hlen. lia.
      * rewrite <- (append_nil_r r). apply ws_rune; [assumption | constructor].
    + intros ->. constructor.
Qed.

(** [strings.TrimSpace] returns the empty string exactly on the strings
    made of white space only. *)
Lemma TrimSpace_empty_iff (s : string) :
  TrimSpace s = EmptyString <-> WhitespaceOnly s.
Proof.
  unfold TrimSpace. split.
  - intros H. apply trimRight_empty_ws in H; [|lia].
    apply ws_no_rune in H; [|apply trimLeft_done; lia].
    apply trimLeft_empty_ws in H; [assumption | lia].
  - intros H. rewrite (ws_trimLeft_empty _ H) by lia. reflexivity.
Qed.

End TrimFacts.

(** ** Running the helpers *)

Section Facts.

Variable E : Collaborators.
Variable json_Unmarshal : string -> error + commitPlan.

Lemma bind_run {A B} (m : M E A) (k : A -> M E B) (s : State E) {a s1 e1} :
  m s = (a, s1, e1) ->
  bind m k s = (let '(b, s2, e2) := k a s1 in (b, s2, (e1 ++ e2)%list)).
Proof. intros H. unfold bind. now rewrite H. Qed.

Lemma Exec_run (cmd : Command) (s : State E) {out w} :
  console_Exec E cmd (world s) = (out, w) ->
  Exec E cmd s = (out, mkState w (conversation s), [EvExec cmd out]).
Proof. intros H. unfold Exec. now rewrite H. Qed.

Lemma Now_run (s : State E) {t w} :
  time_Now E (world s) = (t, w) ->
  Now E s = (t, mkState w (conversation s), []).
Proof. intros H. unfold Now. now rewrite H. Qed.

Lemma stashChanges_run (s : State E) {t w1 out w2} :
  time_Now E (world s) = (t, w1) ->
  console_Exec E (gitStashPush ("nomi-stash-" ++ t)) w1 = (out, w2) ->
  stashChanges E s =
    (stashVerdict out, mkState w2 (conversation s),
     [EvExec (gitStashPush ("nomi-stash-" ++ t)) out]).
Proof.
  intros Ht Hx. unfold stashChanges.
  rewrite (bind_run _ _ _ (Now_run s Ht)).
  rewrite (bind_run _ _ _ (Exec_run _ (mkState w1 (conversation s)) Hx)).
  unfold stashVerdict. destruct out as [e|r]; [reflexivity|].
  destruct (Split_head (Output r) "010") as [rest1 ->].
  destruct (Split_head (upTo "010" (Output r)) ":") as [rest2 ->].
  destruct (Success r); cbn [negb].
  - destruct (String.eqb _ EmptyString); reflexivity.
  - destruct (String.eqb (Error r) EmptyString); cbn [negb]; [|reflexivity].
    destruct (String.eqb (Output r) EmptyString); reflexivity.
Qed.

Lemma checkGitRepository_run (s : State E) {out w} :
  console_Exec E gitRevParse (world s) = (out, w) ->
  checkGitRepository E s =
    (if failed out then Some "not a git repository" else None,
     mkState w (conversation s), [EvExec gitRevParse out]).
Proof.
  intros Hx. unfold checkGitRepository.
  rewrite (bind_run _ _ _ (Exec_run _ s Hx)).
  destruct (failed out); reflexivity.
Qed.

Lemma unstashChanges_apply_failed (s : State E) {out w} :
  console_Exec E gitStashApply (world s) = (out, w) ->
  failed out = true ->
  unstashChanges E s =
    (Some "failed to unstash changes", mkState w (conversation s),
     [EvExec gitStashApply out]).
Proof.
  intros Hx Hf. unfold unstashChanges.
  rewrite (bind_run _ _ _ (Exec_run _ s Hx)), Hf. reflexivity.
Qed.

Lemma unstashChanges_run (s : State E) {out1 w1 out2 w2} :
  console_Exec E gitStashApply (world s) = (out1, w1) ->
  failed out1 = false ->
  console_Exec E gitReset w1 = (out2, w2) ->
  unstashChanges E s =
    (if failed out2 then Some "failed to reset changes" else None,
     mkState w2 (conversation s),
     [EvExec gitStashApply out1; EvExec gitReset out2]).
Proof.
  intros Hx1 Hf Hx2. unfold unstashChanges.
  rewrite (bind_run _ _ _ (Exec_run _ s Hx1)), Hf.
  rewrite (bind_run _ _ _ (Exec_run _ (mkState w1 (conversation s)) Hx2)).
  destruct (failed out2); reflexivity.
Qed.

Lemma getStashDiff_run (s : State E) {out w} :
  console_Exec E gitStashShow (world s) = (out, w) ->
  getStashDiff E s =
    (match out with
     | inr result =>
         if Success result then (Output result, None)
         else (EmptyString, Some "failed to show stash diff")
     | inl _ => (EmptyString, Some "failed to show stash diff")
     end,
     mkState w (conversation s), [EvExec gitStashShow out]).
Proof.
  intros Hx. unfold getStashDiff.
  rewrite (bind_run _ _ _ (Exec_run _ s Hx)).
  destruct out as [e|r]; [reflexivity|]. destruct (Success r); reflexivity.
Qed.

Lemma deleteStash_run (s : State E) {out w} :
  console_Exec E gitStashDrop (world s) = (out, w) ->
  deleteStash E s =
    (if failed out then Some "failed to delete stash" else None,
     mkState w (conversation s), [EvExec gitStashDrop out]).
Proof.
  intros Hx. unfold deleteStash.
  rewrite (bind_run _ _ _ (Exec_run _ s Hx)).
  destruct (failed out); reflexivity.
Qed.

Lemma deferred_run (s : State E) {out w} :
  console_Exec E gitStashDrop (world s) = (out, w) ->
  deferred E s =
    (tt, mkState w (conversation s),
     EvExec gitStashDrop out ::
     if failed out then [EvLog LError "Failed to delete stash: failed to delete stash"]
     else []).
Proof.
  intros Hx. unfold deferred.
  rewrite (bind_run _ _ _ (deleteStash_run s Hx)).
  destruct (failed out); reflexivity.
Qed.

(** ** The executor *)

Lemma applyAction_apply_failed (i : nat) (a : action) (s : State E) {out w} :
  console_Exec E (gitApply (ensureNewline (Patch a))) (world s) = (out, w) ->
  failed out = true ->
  applyAction E i a s =
    (["failed to apply patch " ++ itoa i ++ ": " ++ detail out],
     mkState w (conversation s),
     [EvExec (gitApply (ensureNewline (Patch a))) out]).
Proof.
  intros Hx Hf. unfold applyAction.
  rewrite (bind_run _ _ _ (Exec_run _ s Hx)).
  destruct out as [e|r]; [reflexivity|].
  simpl in Hf. rewrite Hf. reflexivity.
Qed.

Lemma applyAction_commit_failed (i : nat) (a : action) (s : State E) {out1 w1 out2 w2} :
  console_Exec E (gitApply (ensureNewline (Patch a))) (world s) = (out1, w1) ->
  failed out1 = false ->
  console_Exec E (gitCommit (CommitMessage a)) w1 = (out2, w2) ->
  failed out2 = true ->
  applyAction E i a s =
    (["failed to commit changes " ++ itoa i ++ ": " ++ detail out2],
     mkState w2 (conversation s),
     [EvExec (gitApply (ensureNewline (Patch a))) out1;
      EvExec (gitCommit (CommitMessage a)) out2]).
Proof.
  intros Hx1 Hf1 Hx2 Hf2. unfold applyAction.
  rewrite (bind_run _ _ _ (Exec_run _ s Hx1)).
  destruct out1 as [e|r1]; [discriminate|].
  simpl in Hf1. rewrite Hf1.
  rewrite (bind_run _ _ _ (Exec_run _ (mkState w1 (conversation s)) Hx2)).
  destruct out2 as [e|r2]; [reflexivity|].
  simpl in Hf2. rewrite Hf2. reflexivity.
Qed.

Lemma applyAction_committed (i : nat) (a : action) (s : State E) {out1 w1 out2 w2} :
  console_Exec E (gitApply (ensureNewline (Patch a))) (world s) = (out1, w1) ->
  failed out1 = false ->
  console_Exec E (gitCommit (CommitMessage a)) w1 = (out2, w2) ->
  failed out2 = false ->
  applyAction E i a s =
    ([], mkState w2 (conversation s),
     [EvExec (gitApply (ensureNewline (Patch a))) out1;
      EvExec (gitCommit (CommitMessage a)) out2;
      EvLog LInfo ("Committed " ++ CommitMessage a)]).
Proof.
  intros Hx1 Hf1 Hx2 Hf2. unfold applyAction.
  rewrite (bind_run _ _ _ (Exec_run _ s Hx1)).
  destruct out1 as [e|r1]; [discriminate|].
  simpl in Hf1. rewrite Hf1.
  rewrite (bind_run _ _ _ (Exec_run _ (mkState w1 (conversation s)) Hx2)).
  destruct out2 as [e|r2]; [discriminate|].
  simpl in Hf2. rewrite Hf2. reflexivity.
Qed.

Lemma applyActions_cons (i : nat) (a : action) (rest : list action)
    (acc : list error) (s : State E) {errs s1 ev1} :
  applyAction E i a s = (errs, s1, ev1) ->
  applyActions E i (a :: rest) acc s =
    (let '(r, s2, ev2) := applyActions E (S i) rest (acc ++ errs)%list s1 in
     (r, s2, (ev1 ++ ev2)%list)).
Proof. intros H. cbn [applyActions]. now rewrite (bind_run _ _ _ H). Qed.

(** The errors found so far are kept as they are: the loop only appends. *)
Lemma applyActions_acc (l : list action) (i : nat) (acc : list error) (s : State E) :
  applyActions E i l acc s =
    (let '(r, s', ev) := applyActions E i l [] s in ((acc ++ r)%list, s', ev)).
Proof.
  revert i acc s. induction l as [|a l IH]; intros i acc s.
  - cbn. now rewrite app_nil_r.
  - destruct (applyAction E i a s) as [[errs s1] ev1] eqn:Ha.
    rewrite !(applyActions_cons _ _ _ _ _ Ha).
    rewrite (IH (S i) (acc ++ errs)%list), (IH (S i) ([] ++ errs)%list).
    destruct (applyActions E (S i) l [] s1) as [[r s2] ev2].
    cbn. now rewrite app_assoc.
Qed.

Lemma applyActions_app (l1 l2 : list action) (i : nat) (acc : list error) (s : State E) :
  applyActions E i (l1 ++ l2) acc s =
    (let '(r1, s1, ev1) := applyActions E i l1 acc s in
     let '(r2, s2, ev2) := applyActions E (List.length l1 + i) l2 r1 s1 in
     (r2, s2, (ev1 ++ ev2)%list)).
Proof.
  revert i acc s. induction l1 as [|a l1 IH]; intros i acc s.
  - cbn. now destruct (applyActions E i l2 acc s) as [[r2 s2] ev2].
  - destruct (applyAction E i a s) as [[errs s1] ev1] eqn:Ha.
    change ((a :: l1) ++ l2)%list with (a :: (l1 ++ l2))%list.
    rewrite !(applyActions_cons _ _ _ _ _ Ha), IH.
    destruct (applyActions E (S i) l1 (acc ++ errs)%list s1) as [[r1 s2] ev2].
    replace (List.length (a :: l1) + i) with (List.length l1 + S i) by (simpl; lia).
    destruct (applyActions E (List.length l1 + S i) l2 r1 s2) as [[r2 s3] ev3].
    now rewrite app_assoc.
Qed.

(** ** What a computation can emit *)

Lemma Emits_ret {A} (P : Event -> Prop) (a : A) : Emits P (ret (E:=E) a).
Proof. intros s. constructor. Qed.

Lemma Emits_bind {A B} (P : Event -> Prop) (m : M E A) (k : A -> M E B) :
  Emits P m -> (forall a, Emits P (k a)) -> Emits P (bind m k).
Proof.
  intros Hm Hk s. unfold bind. specialize (Hm s).
  destruct (m s) as [[a s1] e1]. specialize (Hk a s1).
  destruct (k a s1) as [[b s2] e2]. cbn in *. apply Forall_app. auto.
Qed.

Lemma Emits_log (P : Event -> Prop) (lvl : Level) (msg : string) :
  P (EvLog lvl msg) -> Emits P (log E lvl msg).
Proof. intros H s. cbn. auto. Qed.

Lemma Emits_Exec (P : Event -> Prop) (cmd : Command) :
  (forall out, P (EvExec cmd out)) -> Emits P (Exec E cmd).
Proof.
  intros H s. unfold Exec. destruct (console_Exec E cmd (world s)). cbn. auto.
Qed.

Lemma Emits_Do (P : Event -> Prop) :
  (forall c out, P (EvGenerate c out)) -> Emits P (Do E).
Proof.
  intros H s. unfold Do.
  destruct (textToJSON_Do E (conversation s) (world s)) as [[out c] w]. cbn. auto.
Qed.

Lemma Emits_SelectBool (P : Event -> Prop) (prompt : string) (default : bool) :
  (forall b, P (EvSelect prompt default b)) -> Emits P (SelectBool E prompt default).
Proof.
  intros H s. unfold SelectBool.
  destruct (selector_SelectBool E prompt default (world s)). cbn. auto.
Qed.

Lemma Emits_Read (P : Event -> Prop) (prompt : string) :
  (forall l, P (EvRead prompt l)) -> Emits P (Read E prompt).
Proof.
  intros H s. unfold Read. destruct (inputArea_Read E prompt (world s)). cbn. auto.
Qed.

Lemma Emits_Done (P : Event -> Prop) : Emits P (Done E).
Proof. intros s. unfold Done. destruct (ctx_Done E (world s)). constructor. Qed.

Lemma Emits_Now (P : Event -> Prop) : Emits P (Now E).
Proof. intros s. unfold Now. destruct (time_Now E (world s)). constructor. Qed.

Lemma Emits_AddMessage (P : Event -> Prop) (m : Message) : Emits P (AddMessage E m).
Proof. intros s. constructor. Qed.

Lemma Emits_weaken {A} (P Q : Event -> Prop) (m : M E A) :
  (forall ev, P ev -> Q ev) -> Emits P m -> Emits Q m.
Proof. intros H Hm s. eapply Forall_impl; [exact H | apply Hm]. Qed.

Ltac emits :=
  repeat first
    [ apply Emits_ret
    | apply Emits_log; first [exact I | reflexivity]
    | apply Emits_Exec; intros; first [reflexivity | discriminate]
    | apply Emits_Do; intros; first [exact I | reflexivity]
    | apply Emits_SelectBool; intros; first [exact I | reflexivity]
    | apply Emits_Read; intros; first [exact I | reflexivity]
    | apply Emits_Done
    | apply Emits_Now
    | progress cbv zeta
    | apply Emits_AddMessage
    | apply Emits_bind; [|intros]
    | match goal with
      | |- Emits _ (match ?x with _ => _ end) => destruct x
      end ].

Lemma applyAction_emits (i : nat) (a : action) :
  Emits executorEvent (applyAction E i a).
Proof. unfold applyAction. emits. Qed.

Lemma applyActions_emits (l : list action) (i : nat) (acc : list error) :
  Emits executorEvent (applyActions E i l acc).
Proof.
  revert i acc. induction l as [|a l IH]; intros i acc; cbn [applyActions].
  - emits.
  - apply Emits_bind; [apply applyAction_emits | intros; apply IH].
Qed.

Lemma executor_planning (ev : Event) : executorEvent ev -> planningEvent ev.
Proof. destruct ev; cbn; auto. Qed.

Lemma printPlan_emits (l : list action) : Emits planningEvent (printPlan E l).
Proof. induction l as [|a l IH]; cbn [printPlan]; emits. exact IH. Qed.

Lemma negotiate_emits (fuel : nat) :
  Emits planningEvent (negotiate E json_Unmarshal fuel).
Proof.
  induction fuel as [|fuel IH]; cbn [negotiate]; emits.
  - apply printPlan_emits.
  - exact IH.
  - eapply Emits_weaken; [exact executor_planning | apply applyActions_emits].
Qed.

(** ** One negotiation round *)

Lemma log_run (lvl : Level) (msg : string) (s : State E) :
  log E lvl msg s = (tt, s, [EvLog lvl msg]).
Proof. reflexivity. Qed.

Lemma AddMessage_run (m : Message) (s : State E) :
  AddMessage E m s = (tt, mkState (world s) (conversation s ++ [m])%list, []).
Proof. reflexivity. Qed.

Lemma Done_run (s : State E) {b w} :
  ctx_Done E (world s) = (b, w) ->
  Done E s = (b, mkState w (conversation s), []).
Proof. intros H. unfold Done. now rewrite H. Qed.

Lemma Do_run (s : State E) {out c w} :
  textToJSON_Do E (conversation s) (world s) = (out, c, w) ->
  Do E s = (out, mkState w c, [EvGenerate (conversation s) out]).
Proof. intros H. unfold Do. now rewrite H. Qed.

Lemma SelectBool_run (prompt : string) (default : bool) (s : State E) {b w} :
  selector_SelectBool E prompt default (world s) = (b, w) ->
  SelectBool E prompt default s =
    (b, mkState w (conversation s), [EvSelect prompt default b]).
Proof. intros H. unfold SelectBool. now rewrite H. Qed.

Lemma Read_run (prompt : string) (s : State E) {l w} :
  inputArea_Read E prompt (world s) = (l, w) ->
  Read E prompt s = (l, mkState w (conversation s), [EvRead prompt l]).
Proof. intros H. unfold Read. now rewrite H. Qed.

Lemma printPlan_run (l : list action) (s : State E) :
  printPlan E l s = (tt, s, map (fun a => EvLog LPrintln (tab ++ CommitMessage a)) l).
Proof.
  induction l as [|a l IH]; [reflexivity|]. cbn [printPlan].
  rewrite (bind_run _ _ _ (log_run _ _ _)), IH. reflexivity.
Qed.

Lemma negotiate_cancelled (fuel : nat) (s : State E) {w1} :
  ctx_Done E (world s) = (true, w1) ->
  negotiate E json_Unmarshal (S fuel) s =
    (Returned (Some "context cancelled"), mkState w1 (conversation s), []).
Proof.
  intros Hd. cbn [negotiate]. rewrite (bind_run _ _ _ (Done_run s Hd)). reflexivity.
Qed.

Lemma negotiate_backend_failed (fuel : nat) (s : State E) {w1 err c1 w2} :
  ctx_Done E (world s) = (false, w1) ->
  textToJSON_Do E (conversation s) w1 = (inl err, c1, w2) ->
  negotiate E json_Unmarshal (S fuel) s =
    (Returned (Some ("failed to convert text to JSON: " ++ err)), mkState w2 c1,
     [EvLog LInfo "Creating commit plan"; EvGenerate (conversation s) (inl err)]).
Proof.
  intros Hd Hg. cbn [negotiate].
  rewrite (bind_run _ _ _ (Done_run s Hd)).
  rewrite (bind_run _ _ _ (log_run _ _ _)).
  rewrite (bind_run _ _ _ (Do_run (mkState w1 (conversation s)) Hg)).
  reflexivity.
Qed.

Lemma negotiate_malformed (fuel : nat) (s : State E) {w1 resp c1 w2 err} :
  ctx_Done E (world s) = (false, w1) ->
  textToJSON_Do E (conversation s) w1 = (inr resp, c1, w2) ->
  json_Unmarshal resp = inl err ->
  negotiate E json_Unmarshal (S fuel) s =
    (Returned (Some ("failed to unmarshal commit plan: " ++ err)), mkState w2 c1,
     [EvLog LInfo "Creating commit plan"; EvGenerate (conversation s) (inr resp);
      EvLog LDebug ("Raw Commit plan: " ++ resp)]).
Proof.
  intros Hd Hg Hu. cbn [negotiate].
  rewrite (bind_run _ _ _ (Done_run s Hd)).
  rewrite (bind_run _ _ _ (log_run _ _ _)).
  rewrite (bind_run _ _ _ (Do_run (mkState w1 (conversation s)) Hg)).
  rewrite (bind_run _ _ _ (log_run _ _ _)), Hu.
  reflexivity.
Qed.

Lemma negotiate_rejected (fuel : nat) (s : State E) {w1 resp c1 w2 plan w3 text w4} :
  ctx_Done E (world s) = (false, w1) ->
  textToJSON_Do E (conversation s) w1 = (inr resp, c1, w2) ->
  json_Unmarshal resp = inr plan ->
  selector_SelectBool E question true w2 = (false, w3) ->
  inputArea_Read E ">>> " w3 = (text, w4) ->
  negotiate E json_Unmarshal (S fuel) s =
    (let '(out, s', evs) :=
       negotiate E json_Unmarshal fuel
         (mkState w4 (c1 ++ [NewMessage RoleUser text])%list) in
     (out, s',
      (proposal (conversation s) resp plan
         ++ [EvSelect question true false; EvRead ">>> " text] ++ evs)%list)).
Proof.
  intros Hd Hg Hu Hs Hr. cbn [negotiate].
  rewrite (bind_run _ _ _ (Done_run s Hd)).
  rewrite (bind_run _ _ _ (log_run _ _ _)).
  rewrite (bind_run _ _ _ (Do_run (mkState w1 (conversation s)) Hg)).
  rewrite (bind_run _ _ _ (log_run _ _ _)), Hu.
  rewrite (bind_run _ _ _ (log_run _ _ _)).
  rewrite (bind_run _ _ _ (printPlan_run _ _)).
  rewrite (bind_run _ _ _ (SelectBool_run _ _ (mkState w2 c1) Hs)).
  cbn [negb].
  rewrite (bind_run _ _ _ (Read_run _ (mkState w3 c1) Hr)).
  rewrite (bind_run _ _ _ (AddMessage_run _ _)).
  cbn [world conversation].
  destruct (negotiate E json_Unmarshal fuel _) as [[out s'] evs].
  reflexivity.
Qed.

Lemma negotiate_accepted (fuel : nat) (s : State E) {w1 resp c1 w2 plan w3} :
  ctx_Done E (world s) = (false, w1) ->
  textToJSON_Do E (conversation s) w1 = (inr resp, c1, w2) ->
  json_Unmarshal resp = inr plan ->
  selector_SelectBool E question true w2 = (true, w3) ->
  negotiate E json_Unmarshal (S fuel) s =
    (let '(errors, s', evs) := applyActions E 0 (CommitPlan plan) [] (mkState w3 c1) in
     (Returned None, s',
      (proposal (conversation s) resp plan ++ [EvSelect question true true] ++ evs)%list)).
Proof.
  intros Hd Hg Hu Hs. cbn [negotiate].
  rewrite (bind_run _ _ _ (Done_run s Hd)).
  rewrite (bind_run _ _ _ (log_run _ _ _)).
  rewrite (bind_run _ _ _ (Do_run (mkState w1 (conversation s)) Hg)).
  rewrite (bind_run _ _ _ (log_run _ _ _)), Hu.
  rewrite (bind_run _ _ _ (log_run _ _ _)).
  rewrite (bind_run _ _ _ (printPlan_run _ _)).
  rewrite (bind_run _ _ _ (SelectBool_run _ _ (mkState w2 c1) Hs)).
  cbn [negb].
  unfold bind.
  destruct (applyActions E 0 (CommitPlan plan) [] _) as [[errors s'] evs].
  unfold proposal. cbn [app ret]. rewrite app_nil_r. reflexivity.
Qed.

(** ** The shape of a run of [OnStart] *)

Lemma OnStart_split (fuel : nat) (s : State E) :
  OnStart E json_Unmarshal fuel s =
    (let '(err, s1, ev1) := snapshot E s in
     match err with
     | Some e => (Returned (Some e), s1, ev1)
     | None =>
         let '(out, s2, ev2) := planAndCommit E json_Unmarshal fuel s1 in
         match out with
         | Returned r =>
             let '(_, s3, ev3) := deferred E s2 in
             (Returned r, s3, (ev1 ++ ev2 ++ ev3)%list)
         | OutOfFuel => (OutOfFuel, s2, (ev1 ++ ev2)%list)
         end
     end).
Proof.
  unfold OnStart, snapshot, bind, log, AddMessage, ret. cbv beta iota zeta.
  destruct (checkGitRepository E _) as [[[e|] s1] ev1]; [reflexivity|].
  destruct (stashChanges E s1) as [[[e|] s2] ev2]; [reflexivity|].
  destruct (unstashChanges E s2) as [[[e|] s3] ev3]; [reflexivity|].
  destruct (planAndCommit E json_Unmarshal fuel s3) as [[[r|] s4] ev4].
  - destruct (deferred E s4) as [[[] s5] ev5].
    f_equal. cbn [app]. rewrite !app_nil_r.
    repeat (rewrite <- ?app_assoc; cbn [app]). reflexivity.
  - f_equal. cbn [app]. rewrite !app_nil_r.
    repeat (rewrite <- ?app_assoc; cbn [app]). reflexivity.
Qed.

(** ** The release *)

Lemma planning_notRelease (ev : Event) : planningEvent ev -> notRelease ev.
Proof.
  destruct ev as [cmd out| | | |]; try reflexivity.
  unfold planningEvent, notRelease, isDropEv, isApply, isCommit, isStashDrop, isGitSub.
  destruct (String.eqb (Name cmd) "git"); [|reflexivity].
  destruct (Args cmd) as [|a l]; [reflexivity|]. cbn [andb orb sameArgs].
  destruct (String.eqb_spec a "stash") as [->|_]; [discriminate | reflexivity].
Qed.

Lemma snapshot_emits : Emits notRelease (snapshot E).
Proof.
  unfold snapshot, checkGitRepository, stashChanges, unstashChanges. emits.
Qed.

Lemma planAndCommit_emits (fuel : nat) :
  Emits notRelease (planAndCommit E json_Unmarshal fuel).
Proof.
  unfold planAndCommit, getStashDiff. emits.
  eapply Emits_weaken; [exact planning_notRelease | apply negotiate_emits].
Qed.

Lemma releases_app (l1 l2 : list Event) :
  releases (l1 ++ l2) = releases l1 + releases l2.
Proof. unfold releases. now rewrite filter_app, length_app. Qed.

Lemma releases_none (l : list Event) : Forall notRelease l -> releases l = 0.
Proof.
  unfold releases. induction 1 as [|ev l Hev _ IH]; [reflexivity|].
  cbn. now rewrite Hev.
Qed.

Lemma execs_app (l1 l2 : list Event) : execs (l1 ++ l2) = (execs l1 ++ execs l2)%list.
Proof. apply flat_map_app. Qed.

Lemma deferred_releases (s : State E) :
  releases (snd (deferred E s)) = 1 /\ execs (snd (deferred E s)) = [gitStashDrop].
Proof.
  destruct (console_Exec E gitStashDrop (world s)) as [out w] eqn:Hx.
  rewrite (deferred_run s Hx). destruct (failed out); split; reflexivity.
Qed.

Lemma deferred_emits_logs (s : State E) : generates (snd (deferred E s)) = [].
Proof.
  destruct (console_Exec E gitStashDrop (world s)) as [out w] eqn:Hx.
  rewrite (deferred_run s Hx). destruct (failed out); reflexivity.
Qed.

(** [reachesDefer] says that the repository check, the capture and the
    replay returned nil, each in the state the one before left. *)
Lemma reachesDefer_spec (s : State E) :
  reachesDefer s =
    match checkGitRepository E
            (mkState (world s)
               (conversation s ++ [NewMessage RoleSystem agentPrompt])%list) with
    | (None, s1, _) =>
        match stashChanges E s1 with
        | (None, s2, _) =>
            match unstashChanges E s2 with
            | (None, _, _) => true
            | (Some _, _, _) => false
            end
        | (Some _, _, _) => false
        end
    | (Some _, _, _) => false
    end.
Proof.
  unfold reachesDefer, snapshot, bind, log, AddMessage, ret. cbv beta iota zeta.
  destruct (checkGitRepository E _) as [[[e|] s1] ev1]; [reflexivity|].
  destruct (stashChanges E s1) as [[[e|] s2] ev2]; [reflexivity|].
  destruct (unstashChanges E s2) as [[[e|] s3] ev3]; reflexivity.
Qed.

(** C1, as the code has it: the release is deferred only once the
    repository check, the capture and the replay have succeeded. A run that
    gets that far issues the stash-drop invocation exactly once, as its last
    command, whatever fails afterwards; a run in which one of the three
    fails returns without issuing it. While the negotiation loop is still
    running, no release has been issued. *)
Theorem release_once_when_deferred (fuel : nat) (s : State E) :
  let '(out, _, evs) := OnStart E json_Unmarshal fuel s in
  match out with
  | Returned _ =>
      if reachesDefer s
      then releases evs = 1 /\ exists before, execs evs = (before ++ [gitStashDrop])%list
      else releases evs = 0
  | OutOfFuel => releases evs = 0 /\ reachesDefer s = true
  end.
Proof.
  rewrite OnStart_split. unfold reachesDefer.
  pose proof (snapshot_emits s) as H1.
  destruct (snapshot E s) as [[[e|] s1] ev1]; cbn [fst snd] in *.
  - now apply releases_none.
  - pose proof (planAndCommit_emits fuel s1) as H2.
    destruct (planAndCommit E json_Unmarshal fuel s1) as [[[r|] s2] ev2]; cbn [snd] in H2.
    + destruct (deferred_releases s2) as [H3 H4].
      destruct (deferred E s2) as [[[] s3] ev3]; cbn [snd] in *. split.
      * rewrite !releases_app, H3, (releases_none _ H1), (releases_none _ H2).
        reflexivity.
      * exists (execs ev1 ++ execs ev2)%list.
        now rewrite !execs_app, H4, app_assoc.
    + split; [|reflexivity].
      now rewrite releases_app, (releases_none _ H1), (releases_none _ H2).
Qed.

(** ** The diff and what follows *)

Lemma planAndCommit_diff_failed (fuel : nat) (s : State E) {out w} :
  console_Exec E gitStashShow (world s) = (out, w) ->
  failed out = true ->
  planAndCommit E json_Unmarshal fuel s =
    (Returned (Some "failed to get stash diff: failed to show stash diff"),
     mkState w (conversation s),
     [EvLog LInfo "Getting stash diff"; EvExec gitStashShow out]).
Proof.
  intros Hx Hf. unfold planAndCommit.
  rewrite (bind_run _ _ _ (log_run _ _ _)).
  rewrite (bind_run _ _ _ (getStashDiff_run s Hx)).
  destruct out as [e|r]; [reflexivity|].
  simpl in Hf. apply negb_true_iff in Hf. rewrite Hf. reflexivity.
Qed.

Lemma planAndCommit_empty (fuel : nat) (s : State E) {result w} :
  console_Exec E gitStashShow (world s) = (inr result, w) ->
  Success result = true ->
  Output result = EmptyString ->
  planAndCommit E json_Unmarshal fuel s =
    (Returned None, mkState w (conversation s),
     [EvLog LInfo "Getting stash diff"; EvExec gitStashShow (inr result);
      EvLog LDebug "Stash diff: "; EvLog LInfo "No changes to commit"]).
Proof.
  intros Hx Hs Ho. unfold planAndCommit.
  rewrite (bind_run _ _ _ (log_run _ _ _)).
  rewrite (bind_run _ _ _ (getStashDiff_run s Hx)).
  rewrite Hs, Ho. reflexivity.
Qed.

Lemma planAndCommit_negotiate (fuel : nat) (s : State E) {result w} :
  console_Exec E gitStashShow (world s) = (inr result, w) ->
  Success result = true ->
  Output result <> EmptyString ->
  planAndCommit E json_Unmarshal fuel s =
    (let '(out, s', evs) :=
       negotiate E json_Unmarshal fuel
         (mkState w (conversation s ++ [NewMessage RoleUser (Output result)])%list) in
     (out, s',
      [EvLog LInfo "Getting stash diff"; EvExec gitStashShow (inr result);
       EvLog LDebug ("Stash diff: " ++ Output result)] ++ evs)%list).
Proof.
  intros Hx Hs Ho. unfold planAndCommit.
  rewrite (bind_run _ _ _ (log_run _ _ _)).
  rewrite (bind_run _ _ _ (getStashDiff_run s Hx)).
  rewrite Hs.
  rewrite (bind_run _ _ _ (log_run _ _ _)).
  destruct (String.eqb_spec (Output result) EmptyString) as [Heq|_]; [contradiction|].
  rewrite (bind_run _ _ _ (AddMessage_run _ _)).
  cbn [world conversation].
  destruct (negotiate E json_Unmarshal fuel _) as [[out s'] evs]. reflexivity.
Qed.

Lemma planning_notShow (ev : Event) : planningEvent ev -> notShow ev.
Proof.
  destruct ev as [cmd out| | | |]; cbn; auto.
  intros H ->. discriminate H.
Qed.

Lemma snapshot_notShow : Emits notShow (snapshot E).
Proof.
  unfold snapshot, checkGitRepository, stashChanges, unstashChanges. emits.
Qed.

Lemma deferred_notShow : Emits notShow (deferred E).
Proof. unfold deferred, deleteStash. emits. Qed.

(** The commands of a snapshot phase that succeeded. *)
Lemma snapshot_execs (s : State E) {s1 ev1} :
  snapshot E s = (None, s1, ev1) ->
  exists t,
    execs ev1 = [gitRevParse; gitStashPush ("nomi-stash-" ++ t); gitStashApply; gitReset]
    /\ generates ev1 = [].
Proof.
  unfold snapshot.
  rewrite (bind_run _ _ _ (log_run _ _ _)).
  rewrite (bind_run _ _ _ (AddMessage_run _ _)).
  set (s0 := mkState _ _).
  destruct (console_Exec E gitRevParse (world s0)) as [o1 w1] eqn:H1.
  rewrite (bind_run _ _ _ (checkGitRepository_run s0 H1)).
  destruct (failed o1); [discriminate|].
  rewrite (bind_run _ _ _ (log_run _ _ _)).
  set (s1' := mkState w1 _).
  destruct (time_Now E (world s1')) as [t w2] eqn:Ht.
  destruct (console_Exec E (gitStashPush ("nomi-stash-" ++ t)) w2) as [o2 w3] eqn:H2.
  rewrite (bind_run _ _ _ (stashChanges_run s1' Ht H2)).
  destruct (stashVerdict o2); [discriminate|].
  set (s2' := mkState w3 _).
  destruct (console_Exec E gitStashApply (world s2')) as [o3 w4] eqn:H3.
  destruct (failed o3) eqn:Hf3.
  - rewrite (bind_run _ _ _ (unstashChanges_apply_failed s2' H3 Hf3)). discriminate.
  - destruct (console_Exec E gitReset w4) as [o4 w5] eqn:H4.
    rewrite (bind_run _ _ _ (unstashChanges_run s2' H3 Hf3 H4)).
    destruct (failed o4); [discriminate|].
    intros H; inversion H; subst. exists t. split; reflexivity.
Qed.

Lemma In_notShow (l : list Event) (out : error + Result) :
  Forall notShow l -> ~ In (EvExec gitStashShow out) l.
Proof.
  intros H Hin. rewrite Forall_forall in H. apply (H _ Hin). reflexivity.
Qed.

Lemma In_firstn {A} (x : A) (n : nat) (l : list A) : In x (firstn n l) -> In x l.
Proof.
  revert l. induction n as [|n IH]; intros [|y l]; cbn; try tauto.
  intros [H|H]; auto.
Qed.

Lemma generates_app (l1 l2 : list Event) :
  generates (l1 ++ l2) = (generates l1 ++ generates l2)%list.
Proof. apply flat_map_app. Qed.

(** C5, as the code has it: when the diff extracted from the snapshot is
    the empty string, [OnStart] returns nil whatever the bound on rounds,
    asks the backend nothing, and the commands it has issued are the
    repository check, the capture, the two commands of the replay, the
    diff extraction and the release, in this order: no patch-apply and no
    commit. *)
Theorem empty_diff_nothing_to_commit
    (fuel : nat) (s s' : State E) (out : Outcome) (evs : list Event) (result : Result) :
  OnStart E json_Unmarshal fuel s = (out, s', evs) ->
  In (EvExec gitStashShow (inr result)) evs ->
  Success result = true ->
  Output result = EmptyString ->
  out = Returned None /\
  generates evs = [] /\
  filter isCommit (execs evs) = [] /\
  filter isApply (execs evs) = [] /\
  exists t,
    execs evs =
      [gitRevParse; gitStashPush ("nomi-stash-" ++ t); gitStashApply; gitReset;
       gitStashShow; gitStashDrop].
Proof.
  rewrite OnStart_split. intros Hrun Hin Hs Ho.
  pose proof (snapshot_notShow s) as N1.
  destruct (snapshot E s) as [[[e|] s1] ev1] eqn:Hsnap; cbn [snd] in N1.
  { inversion Hrun; subst. now apply In_notShow in Hin. }
  destruct (snapshot_execs _ Hsnap) as (t & Hx1 & Hg1).
  destruct (console_Exec E gitStashShow (world s1)) as [o w] eqn:Hx.
  assert (Hcase : (exists r, o = inr r /\ Success r = true /\ Output r = EmptyString)
                  \/ forall r, o = inr r -> Success r = true -> Output r <> EmptyString).
  { destruct o as [e|r]; [right; discriminate|].
    destruct (Success r) eqn:Hsr; [|right; intros r0 H; inversion H; subst; congruence].
    destruct (String.eqb_spec (Output r) EmptyString) as [He|Hne].
    - left. exists r. auto.
    - right. intros r0 H; inversion H; subst. auto. }
  destruct Hcase as [(r & -> & Hsr & Hor) | Hother].
  - rewrite (planAndCommit_empty fuel s1 Hx Hsr Hor) in Hrun.
    destruct (deferred_releases (mkState w (conversation s1))) as [_ Hd].
    pose proof (deferred_emits_logs (mkState w (conversation s1))) as Hg.
    destruct (deferred E _) as [[[] s3] ev3]; cbn [snd] in *.
    inversion Hrun; subst. clear Hrun.
    unfold execs, generates in *. rewrite !flat_map_app.
    cbn [flat_map execOf generateOf app]. rewrite Hx1, Hg1, Hd, Hg.
    repeat split; try reflexivity. exists t. reflexivity.
  - exfalso.
    assert (N2 : forall s2, Forall notShow (snd (negotiate E json_Unmarshal fuel s2))).
    { intros s2. eapply Forall_impl; [exact planning_notShow | apply negotiate_emits]. }
    pose proof deferred_notShow as N3.
    assert (Hmid : exists mid ev2 rest,
               evs = (ev1 ++ (mid ++ ev2) ++ rest)%list /\
               mid = firstn (List.length mid)
                       [EvLog LInfo "Getting stash diff"; EvExec gitStashShow o;
                        EvLog LDebug ("Stash diff: " ++
                                       match o with
                                       | inr r => Output r
                                       | inl _ => EmptyString
                                       end)] /\
               Forall notShow ev2 /\ Forall notShow rest).
    { destruct (failed o) eqn:Hf.
      - rewrite (planAndCommit_diff_failed fuel s1 Hx Hf) in Hrun.
        specialize (N3 (mkState w (conversation s1))).
        destruct (deferred E _) as [[[] s3] ev3].
        injection Hrun as _ _ <-.
        exists [EvLog LInfo "Getting stash diff"; EvExec gitStashShow o], [], ev3.
        rewrite app_nil_r. cbn [snd] in *; repeat split; try reflexivity; auto.
      - destruct o as [e|r]; [discriminate|]. simpl in Hf. apply negb_false_iff in Hf.
        rewrite (planAndCommit_negotiate fuel s1 Hx Hf (Hother r eq_refl Hf)) in Hrun.
        specialize (N2 (mkState w (conversation s1 ++ [NewMessage RoleUser (Output r)])%list)).
        destruct (negotiate E json_Unmarshal fuel _) as [[o2 s2] ev2].
        cbv beta iota zeta in Hrun. destruct o2 as [r2|].
        + specialize (N3 s2). destruct (deferred E s2) as [[[] s3] ev3].
          injection Hrun as _ _ <-.
          exists [EvLog LInfo "Getting stash diff"; EvExec gitStashShow (inr r);
                  EvLog LDebug ("Stash diff: " ++ Output r)], ev2, ev3.
          cbn [snd] in *; repeat split; try reflexivity; auto.
        + injection Hrun as _ _ <-.
          exists [EvLog LInfo "Getting stash diff"; EvExec gitStashShow (inr r);
                  EvLog LDebug ("Stash diff: " ++ Output r)], ev2, [].
          rewrite app_nil_r. cbn [snd] in *; repeat split; try reflexivity; auto. }
    destruct Hmid as (mid & ev2 & rest & -> & Hmid & M2 & M3).
    rewrite !in_app_iff in Hin.
    destruct Hin as [Hin|[[Hin|Hin]|Hin]];
      try (now apply In_notShow in Hin).
    rewrite Hmid in Hin. apply In_firstn in Hin.
    cbn in Hin. destruct Hin as [Hin|[Hin|[Hin|[]]]]; try discriminate.
    injection Hin as ->. now apply (Hother result eq_refl Hs).
Qed.

(** ** The capture *)

Lemma stashChanges_event (s s' : State E) (err : option error) (cmd : Command)
    (out : error + Result) :
  stashChanges E s = (err, s', [EvExec cmd out]) -> err = stashVerdict out.
Proof.
  destruct (time_Now E (world s)) as [t w1] eqn:Ht.
  destruct (console_Exec E (gitStashPush ("nomi-stash-" ++ t)) w1) as [o w2] eqn:Hx.
  rewrite (stashChanges_run s Ht Hx). intros H. injection H as <- _ _ <-. reflexivity.
Qed.

(** C8: when the capture command reports non-success, [stashChanges] fails
    with the captured stderr, word for word, if there is any, else with the
    captured stdout if there is any, else with the no-output message. *)
Theorem capture_failure_surfaces_output
    (s s' : State E) (err : option error) (cmd : Command) (result : Result) :
  stashChanges E s = (err, s', [EvExec cmd (inr result)]) ->
  Success result = false ->
  (Error result <> EmptyString ->
     err = Some ("failed to stash changes: " ++ Error result)) /\
  (Error result = EmptyString -> Output result <> EmptyString ->
     err = Some ("failed to stash changes: " ++ Output result)) /\
  (Error result = EmptyString -> Output result = EmptyString ->
     err = Some "failed to stash changes and received no output").
Proof.
  intros Hrun Hs. rewrite (stashChanges_event _ _ _ _ _ Hrun).
  unfold stashVerdict. rewrite Hs.
  destruct (String.eqb_spec (Error result) EmptyString) as [He|He];
    destruct (String.eqb_spec (Output result) EmptyString) as [Ho|Ho];
    cbn [negb]; repeat split; intros; congruence.
Qed.

Lemma unstashChanges_execs (s : State E) :
  execs (snd (unstashChanges E s)) = [gitStashApply] \/
  execs (snd (unstashChanges E s)) = [gitStashApply; gitReset].
Proof.
  destruct (console_Exec E gitStashApply (world s)) as [o1 w1] eqn:H1.
  destruct (failed o1) eqn:Hf.
  - rewrite (unstashChanges_apply_failed s H1 Hf). now left.
  - destruct (console_Exec E gitReset w1) as [o2 w2] eqn:H2.
    rewrite (unstashChanges_run s H1 Hf H2). now right.
Qed.

(** C10: a capture command that reports success still makes
    [stashChanges] fail, with the message about the stash reference, when
    the text before the first colon of the first line of its stdout is
    empty or white space only, so in particular when stdout is empty (and
    only then). The reference is not part of what [stashChanges] returns,
    and the diff, the replay and the release name [stash@{0}] whatever the
    state they run in. *)
Theorem capture_needs_stash_reference
    (s s' : State E) (err : option error) (cmd : Command) (result : Result) :
  stashChanges E s = (err, s', [EvExec cmd (inr result)]) ->
  Success result = true ->
  (WhitespaceOnly (upTo ":" (upTo "010" (Output result))) ->
     err = Some "unable to retrieve stash reference") /\
  (Output result = EmptyString -> err = Some "unable to retrieve stash reference") /\
  (~ WhitespaceOnly (upTo ":" (upTo "010" (Output result))) -> err = None) /\
  (forall s1, execs (snd (getStashDiff E s1)) = [gitStashShow]) /\
  (forall s1, execs (snd (unstashChanges E s1)) = [gitStashApply] \/
              execs (snd (unstashChanges E s1)) = [gitStashApply; gitReset]) /\
  (forall s1, execs (snd (deleteStash E s1)) = [gitStashDrop]) /\
  last (Args gitStashShow) EmptyString = "stash@{0}" /\
  last (Args gitStashApply) EmptyString = "stash@{0}" /\
  last (Args gitStashDrop) EmptyString = "stash@{0}".
Proof.
  intros Hrun Hs. rewrite (stashChanges_event _ _ _ _ _ Hrun).
  unfold stashVerdict. rewrite Hs.
  set (ref := upTo ":" (upTo "010" (Output result))).
  assert (Hiff := TrimSpace_empty_iff ref).
  repeat split.
  - intros Hw. apply Hiff in Hw. now rewrite Hw.
  - intros Ho. subst ref. rewrite Ho. reflexivity.
  - intros Hn. destruct (String.eqb_spec (TrimSpace ref) EmptyString) as [Ht|_];
      [apply Hiff in Ht; contradiction | reflexivity].
  - intros s1. destruct (console_Exec E gitStashShow (world s1)) as [o w] eqn:Hx.
    now rewrite (getStashDiff_run s1 Hx).
  - apply unstashChanges_execs.
  - intros s1. destruct (console_Exec E gitStashDrop (world s1)) as [o w] eqn:Hx.
    now rewrite (deleteStash_run s1 Hx).
Qed.

(** ** The patch handed to the apply step *)

Lemma ensureNewline_ends (patch : string) : exists body, ensureNewline patch = body ++ nl.
Proof.
  unfold ensureNewline. destruct (HasSuffix patch nl) eqn:H; cbn [negb].
  - now apply HasSuffix_spec.
  - now exists patch.
Qed.

Lemma ensureNewline_fixed (body : string) : ensureNewline (body ++ nl) = body ++ nl.
Proof.
  unfold ensureNewline.
  assert (H : HasSuffix (body ++ nl) nl = true) by (apply HasSuffix_spec; now exists body).
  now rewrite H.
Qed.

(** C9: the patch-apply invocation of an action is the first command
    issued for it and the only patch-apply among them, and its stdin is the
    patch body made to end with a newline: a body not ending in one gets
    exactly one appended, a body ending in one is passed as it is, and
    doing it twice changes nothing more. *)
Theorem patch_ends_with_newline (i : nat) (a : action) (s : State E) :
  (exists out rest,
     snd (applyAction E i a s) = EvExec (gitApply (ensureNewline (Patch a))) out :: rest /\
     filter isApply (execs rest) = []) /\
  Input (gitApply (ensureNewline (Patch a))) = Some (ensureNewline (Patch a)) /\
  (exists body, ensureNewline (Patch a) = body ++ nl) /\
  ((forall body, Patch a <> body ++ nl) -> ensureNewline (Patch a) = Patch a ++ nl) /\
  ((exists body, Patch a = body ++ nl) -> ensureNewline (Patch a) = Patch a) /\
  ensureNewline (ensureNewline (Patch a)) = ensureNewline (Patch a).
Proof.
  repeat split.
  - destruct (console_Exec E (gitApply (ensureNewline (Patch a))) (world s))
      as [o1 w1] eqn:H1.
    destruct (failed o1) eqn:Hf1.
    { rewrite (applyAction_apply_failed i a s H1 Hf1). now exists o1, []. }
    destruct (console_Exec E (gitCommit (CommitMessage a)) w1) as [o2 w2] eqn:H2.
    destruct (failed o2) eqn:Hf2.
    + rewrite (applyAction_commit_failed i a s H1 Hf1 H2 Hf2).
      now exists o1, [EvExec (gitCommit (CommitMessage a)) o2].
    + rewrite (applyAction_committed i a s H1 Hf1 H2 Hf2).
      now exists o1, [EvExec (gitCommit (CommitMessage a)) o2;
                      EvLog LInfo ("Committed " ++ CommitMessage a)].
  - apply ensureNewline_ends.
  - intros Hno. unfold ensureNewline.
    destruct (HasSuffix (Patch a) nl) eqn:H; [|reflexivity].
    apply HasSuffix_spec in H. destruct H as [body H]. now apply Hno in H.
  - intros [body ->]. apply ensureNewline_fixed.
  - destruct (ensureNewline_ends (Patch a)) as [body ->]. apply ensureNewline_fixed.
Qed.

(** ** Failures of single actions *)

Lemma failed_apply_between (pre post : list action) (a : action) (s : State E)
    {errs1 s1 ev1 out w errs3 s3 ev3} :
  applyActions E 0 pre [] s = (errs1, s1, ev1) ->
  console_Exec E (gitApply (ensureNewline (Patch a))) (world s1) = (out, w) ->
  failed out = true ->
  applyActions E (S (List.length pre)) post [] (mkState w (conversation s1))
    = (errs3, s3, ev3) ->
  applyActions E 0 (pre ++ a :: post) [] s =
    ((errs1 ++ [applyError (List.length pre) out] ++ errs3)%list,
     s3,
     (ev1 ++ [EvExec (gitApply (ensureNewline (Patch a))) out] ++ ev3)%list).
Proof.
  intros H1 Hx Hf H3.
  rewrite applyActions_app, H1, Nat.add_0_r.
  rewrite (applyActions_cons _ _ _ _ _ (applyAction_apply_failed _ a s1 Hx Hf)).
  rewrite applyActions_acc, H3. now rewrite <- app_assoc.
Qed.

Lemma applyActions_one_committed (i : nat) (a : action) (rest : list action)
    (acc : list error) (s : State E) {out1 w1 out2 w2} :
  console_Exec E (gitApply (ensureNewline (Patch a))) (world s) = (out1, w1) ->
  failed out1 = false ->
  console_Exec E (gitCommit (CommitMessage a)) w1 = (out2, w2) ->
  failed out2 = false ->
  applyActions E i (a :: rest) acc s =
    (let '(r, s', evs) := applyActions E (S i) rest acc (mkState w2 (conversation s)) in
     (r, s',
      EvExec (gitApply (ensureNewline (Patch a))) out1
        :: EvExec (gitCommit (CommitMessage a)) out2
        :: EvLog LInfo ("Committed " ++ CommitMessage a) :: evs)).
Proof.
  intros H1 Hf1 H2 Hf2.
  rewrite (applyActions_cons _ _ _ _ _ (applyAction_committed i a s H1 Hf1 H2 Hf2)).
  rewrite app_nil_r.
  destruct (applyActions E (S i) rest acc _) as [[r s'] evs]. reflexivity.
Qed.

(** C3, as the code has it: an action whose patch-apply invocation fails
    (an error from the console, or a result that is not a success) adds
    exactly one error to the list, tagged with the action's index in the
    plan counted from zero; no commit is issued for it, the only event of
    that action being its patch-apply; and the actions after it are
    processed, from the next index, in the state the failed invocation
    left. So in a plan of three actions where only the second apply
    fails, the one error is tagged 1, and the first and the third action
    are applied, committed and confirmed. *)
Theorem failed_apply_is_isolated :
  (forall (pre post : list action) (a : action) (s : State E)
          errs1 s1 ev1 out w errs3 s3 ev3,
     applyActions E 0 pre [] s = (errs1, s1, ev1) ->
     console_Exec E (gitApply (ensureNewline (Patch a))) (world s1) = (out, w) ->
     failed out = true ->
     applyActions E (S (List.length pre)) post [] (mkState w (conversation s1))
       = (errs3, s3, ev3) ->
     applyActions E 0 (pre ++ a :: post) [] s =
       ((errs1 ++ [applyError (List.length pre) out] ++ errs3)%list,
        s3,
        (ev1 ++ [EvExec (gitApply (ensureNewline (Patch a))) out] ++ ev3)%list)) /\
  (forall (a1 a2 a3 : action) (s : State E) o1 w1 c1 w2 o2 w3 o3 w4 c3 w5,
     console_Exec E (gitApply (ensureNewline (Patch a1))) (world s) = (o1, w1) ->
     failed o1 = false ->
     console_Exec E (gitCommit (CommitMessage a1)) w1 = (c1, w2) ->
     failed c1 = false ->
     console_Exec E (gitApply (ensureNewline (Patch a2))) w2 = (o2, w3) ->
     failed o2 = true ->
     console_Exec E (gitApply (ensureNewline (Patch a3))) w3 = (o3, w4) ->
     failed o3 = false ->
     console_Exec E (gitCommit (CommitMessage a3)) w4 = (c3, w5) ->
     failed c3 = false ->
     applyActions E 0 [a1; a2; a3] [] s =
       (["failed to apply patch 1: " ++ detail o2],
        mkState w5 (conversation s),
        [EvExec (gitApply (ensureNewline (Patch a1))) o1;
         EvExec (gitCommit (CommitMessage a1)) c1;
         EvLog LInfo ("Committed " ++ CommitMessage a1);
         EvExec (gitApply (ensureNewline (Patch a2))) o2;
         EvExec (gitApply (ensureNewline (Patch a3))) o3;
         EvExec (gitCommit (CommitMessage a3)) c3;
         EvLog LInfo ("Committed " ++ CommitMessage a3)])).
Proof.
  split.
  - intros pre post a s errs1 s1 ev1 out w errs3 s3 ev3 H1 Hx Hf H3.
    exact (failed_apply_between pre post a s H1 Hx Hf H3).
  - intros a1 a2 a3 s o1 w1 c1 w2 o2 w3 o3 w4 c3 w5 H1 F1 H2 F2 H3 F3 H4 F4 H5 F5.
    rewrite (applyActions_one_committed 0 a1 _ _ s H1 F1 H2 F2).
    rewrite (applyActions_cons _ _ _ _ _
               (applyAction_apply_failed 1 a2 (mkState w2 (conversation s)) H3 F3)).
    rewrite (applyActions_one_committed 2 a3 _ _ (mkState w3 (conversation s)) H4 F4 H5 F5).
    reflexivity.
Qed.

(** ** A reply that is not a commit plan *)

Lemma quiet_generates (l : list Event) : Forall quietEvent l -> generates l = [].
Proof.
  induction 1 as [|ev l Hev _ IH]; [reflexivity|].
  destruct ev; cbn in *; auto. contradiction.
Qed.



Lemma proposal_generates (c : Conversation) (resp : string) (plan : commitPlan) :
  generates (proposal c resp plan) = [(c, inr resp)].
Proof.
  unfold proposal. cbn. f_equal.
  induction (CommitPlan plan) as [|a l IH]; [reflexivity | exact IH].
Qed.

Lemma proposal_execs (c : Conversation) (resp : string) (plan : commitPlan) :
  execs (proposal c resp plan) = [].
Proof.
  unfold proposal. cbn.
  induction (CommitPlan plan) as [|a l IH]; [reflexivity | exact IH].
Qed.

Lemma snapshot_quiet : Emits quietEvent (snapshot E).
Proof.
  unfold snapshot, checkGitRepository, stashChanges, unstashChanges. emits.
Qed.


Lemma triple_eq {A B C} (a a' : A) (b b' : B) (c c' : C) :
  (a, b, c) = (a', b', c') -> a = a' /\ b = b' /\ c = c'.
Proof. intros H. injection H. auto. Qed.





(** ** A rejected plan *)

Lemma negotiate_requests (fuel : nat) (s : State E) {w1} :
  ctx_Done E (world s) = (false, w1) ->
  exists reply rest,
    snd (negotiate E json_Unmarshal (S fuel) s) =
      EvLog LInfo "Creating commit plan" :: EvGenerate (conversation s) reply :: rest.
Proof.
  intros Hd.
  destruct (textToJSON_Do E (conversation s) w1) as [[[e|resp] c1] w2] eqn:Hg.
  { rewrite (negotiate_backend_failed fuel s Hd Hg). now exists (inl e), []. }
  destruct (json_Unmarshal resp) as [e|plan] eqn:Hu.
  { rewrite (negotiate_malformed fuel s Hd Hg Hu). now eexists _, _. }
  destruct (selector_SelectBool E question true w2) as [[|] w3] eqn:Hs.
  - rewrite (negotiate_accepted fuel s Hd Hg Hu Hs).
    destruct (applyActions E 0 (CommitPlan plan) [] _) as [[errors s2] ev2].
    now eexists _, _.
  - destruct (inputArea_Read E ">>> " w3) as [text w4] eqn:Hr.
    rewrite (negotiate_rejected fuel s Hd Hg Hu Hs Hr).
    destruct (negotiate E json_Unmarshal fuel _) as [[out2 s2] ev2].
    now eexists _, _.
Qed.

(** C7, as the code has it: in a round where the user rejects the plan,
    nothing is applied, the text read from the user is appended to the
    conversation as a user message and the loop starts over from there,
    without the rejected plan. The next round first polls the context: if
    it is cancelled, [OnStart] returns with no further request; otherwise
    the backend is asked again, with a transcript whose last message is the
    refinement text, and a plan accepted then is executed from its own
    actions alone. *)
Theorem rejection_appends_refinement
    (fuel : nat) (s : State E) (w1 w2 w3 w4 : World E) (resp text : string)
    (c1 : Conversation) (plan : commitPlan) :
  ctx_Done E (world s) = (false, w1) ->
  textToJSON_Do E (conversation s) w1 = (inr resp, c1, w2) ->
  json_Unmarshal resp = inr plan ->
  selector_SelectBool E question true w2 = (false, w3) ->
  inputArea_Read E ">>> " w3 = (text, w4) ->
  let next := mkState w4 (c1 ++ [NewMessage RoleUser text])%list in
  negotiate E json_Unmarshal (S fuel) s =
    (let '(out, s', evs) := negotiate E json_Unmarshal fuel next in
     (out, s',
      (proposal (conversation s) resp plan
         ++ [EvSelect question true false; EvRead ">>> " text] ++ evs)%list)) /\
  last (conversation next) (NewMessage RoleSystem EmptyString) = NewMessage RoleUser text /\
  (forall n w5,
     ctx_Done E w4 = (true, w5) ->
     negotiate E json_Unmarshal (S n) next =
       (Returned (Some "context cancelled"), mkState w5 (conversation next), [])) /\
  (forall n w5,
     ctx_Done E w4 = (false, w5) ->
     exists reply rest,
       snd (negotiate E json_Unmarshal (S n) next) =
         EvLog LInfo "Creating commit plan"
           :: EvGenerate (c1 ++ [NewMessage RoleUser text])%list reply :: rest) /\
  (forall n w5 resp2 c2 w6 plan2 w7,
     ctx_Done E w4 = (false, w5) ->
     textToJSON_Do E (conversation next) w5 = (inr resp2, c2, w6) ->
     json_Unmarshal resp2 = inr plan2 ->
     selector_SelectBool E question true w6 = (true, w7) ->
     negotiate E json_Unmarshal (S n) next =
       (let '(errors, s', evs) :=
          applyActions E 0 (CommitPlan plan2) [] (mkState w7 c2) in
        (Returned None, s',
         (proposal (conversation next) resp2 plan2
            ++ [EvSelect question true true] ++ evs)%list))).
Proof.
  intros Hd Hg Hu Hs Hr next. repeat split.
  - exact (negotiate_rejected fuel s Hd Hg Hu Hs Hr).
  - subst next. cbn [conversation]. apply last_last.
  - intros n w5 Hc. exact (negotiate_cancelled n next Hc).
  - intros n w5 Hc. exact (negotiate_requests n next Hc).
  - intros n w5 resp2 c2 w6 plan2 w7 Hc Hg2 Hu2 Hs2.
    exact (negotiate_accepted n next Hc Hg2 Hu2 Hs2).
Qed.

(** ** The replay *)


(** ** Nothing is applied before a plan is accepted *)

Lemma proposal_idle (c : Conversation) (resp : string) (plan : commitPlan) :
  Forall idleEvent (proposal c resp plan).
Proof.
  unfold proposal. repeat (constructor; [exact I|]). cbn [app].
  induction (CommitPlan plan) as [|a l IH]; constructor; [exact I | exact IH].
Qed.

Lemma snapshot_idle : Emits idleEvent (snapshot E).
Proof.
  unfold snapshot, checkGitRepository, stashChanges, unstashChanges. emits.
Qed.

Lemma deferred_idle : Emits idleEvent (deferred E).
Proof. unfold deferred, deleteStash. emits. Qed.

(** A run of the loop either ends in an accepted plan, and then everything
    before the accepting answer is idle, or is idle throughout. *)
Lemma negotiate_gated (fuel : nat) (s s' : State E) (out : Outcome) (evs : list Event) :
  negotiate E json_Unmarshal fuel s = (out, s', evs) ->
  (out = Returned None /\
   exists before after,
     evs = (before ++ EvSelect question true true :: after)%list /\
     Forall idleEvent before)
  \/ (out <> Returned None /\ Forall idleEvent evs).
Proof.
  revert s s' out evs. induction fuel as [|fuel IH]; intros s s' out evs Hrun.
  { apply triple_eq in Hrun. destruct Hrun as (<- & _ & <-).
    right. split; [discriminate | constructor]. }
  destruct (ctx_Done E (world s)) as [[|] w1] eqn:Hd.
  { rewrite (negotiate_cancelled fuel s Hd) in Hrun.
    apply triple_eq in Hrun. destruct Hrun as (<- & _ & <-).
    right. split; [discriminate | constructor]. }
  destruct (textToJSON_Do E (conversation s) w1) as [[[e|resp] c1] w2] eqn:Hg.
  { rewrite (negotiate_backend_failed fuel s Hd Hg) in Hrun.
    apply triple_eq in Hrun. destruct Hrun as (<- & _ & <-).
    right. split; [discriminate | repeat constructor]. }
  destruct (json_Unmarshal resp) as [e|plan] eqn:Hu.
  { rewrite (negotiate_malformed fuel s Hd Hg Hu) in Hrun.
    apply triple_eq in Hrun. destruct Hrun as (<- & _ & <-).
    right. split; [discriminate | repeat constructor]. }
  destruct (selector_SelectBool E question true w2) as [[|] w3] eqn:Hs.
  - rewrite (negotiate_accepted fuel s Hd Hg Hu Hs) in Hrun.
    destruct (applyActions E 0 (CommitPlan plan) [] _) as [[errors s2] ev2].
    apply triple_eq in Hrun. destruct Hrun as (<- & _ & <-).
    left. split; [reflexivity|].
    exists (proposal (conversation s) resp plan), ev2.
    split; [reflexivity | apply proposal_idle].
  - destruct (inputArea_Read E ">>> " w3) as [text w4] eqn:Hr.
    rewrite (negotiate_rejected fuel s Hd Hg Hu Hs Hr) in Hrun.
    destruct (negotiate E json_Unmarshal fuel _) as [[out2 s2] ev2] eqn:Hnext.
    apply triple_eq in Hrun. destruct Hrun as (<- & _ & <-).
    assert (Hround : Forall idleEvent
              (proposal (conversation s) resp plan
                 ++ [EvSelect question true false; EvRead ">>> " text])%list).
    { apply Forall_app. split; [apply proposal_idle | repeat constructor]. }
    destruct (IH _ _ _ _ Hnext) as [(Hout & before & after & -> & Hb) | (Hout & Hall)].
    + left. split; [exact Hout|].
      exists ((proposal (conversation s) resp plan
                 ++ [EvSelect question true false; EvRead ">>> " text]) ++ before)%list, after.
      split.
      * rewrite <- !app_assoc. reflexivity.
      * apply Forall_app. auto.
    + right. split; [exact Hout|].
      change (Forall idleEvent
                (proposal (conversation s) resp plan
                   ++ [EvSelect question true false; EvRead ">>> " text] ++ ev2)%list).
      rewrite app_assoc. apply Forall_app. auto.
Qed.

Lemma planAndCommit_gated (fuel : nat) (s s' : State E) (out : Outcome)
    (evs : list Event) :
  planAndCommit E json_Unmarshal fuel s = (out, s', evs) ->
  (out = Returned None /\
   exists before after,
     evs = (before ++ EvSelect question true true :: after)%list /\
     Forall idleEvent before)
  \/ Forall idleEvent evs.
Proof.
  intros Hrun.
  destruct (console_Exec E gitStashShow (world s)) as [o w] eqn:Hx.
  destruct (failed o) eqn:Hf.
  { rewrite (planAndCommit_diff_failed fuel s Hx Hf) in Hrun.
    apply triple_eq in Hrun. destruct Hrun as (_ & _ & <-).
    right. repeat constructor. }
  destruct o as [e|r]; [discriminate|]. simpl in Hf. apply negb_false_iff in Hf.
  destruct (String.eqb_spec (Output r) EmptyString) as [Ho|Ho].
  { rewrite (planAndCommit_empty fuel s Hx Hf Ho) in Hrun.
    apply triple_eq in Hrun. destruct Hrun as (_ & _ & <-).
    right. repeat constructor. }
  rewrite (planAndCommit_negotiate fuel s Hx Hf Ho) in Hrun.
  destruct (negotiate E json_Unmarshal fuel _) as [[out2 s2] ev2] eqn:Hnext.
  apply triple_eq in Hrun. destruct Hrun as (<- & _ & <-).
  assert (Hhead : Forall idleEvent
            [EvLog LInfo "Getting stash diff"; EvExec gitStashShow (inr r);
             EvLog LDebug ("Stash diff: " ++ Output r)]) by (repeat constructor).
  destruct (negotiate_gated _ _ _ _ _ Hnext)
    as [(Hout & before & after & -> & Hb) | (Hout & Hall)].
  - left. split; [exact Hout|].
    exists ([EvLog LInfo "Getting stash diff"; EvExec gitStashShow (inr r);
             EvLog LDebug ("Stash diff: " ++ Output r)] ++ before)%list, after.
    split; [now rewrite <- app_assoc | apply Forall_app; auto].
  - right. apply Forall_app. auto.
Qed.

Lemma planAndCommit_failed_idle (fuel : nat) (s s' : State E) (out : Outcome)
    (evs : list Event) :
  planAndCommit E json_Unmarshal fuel s = (out, s', evs) ->
  out <> Returned None -> Forall idleEvent evs.
Proof.
  intros Hrun Hout.
  destruct (planAndCommit_gated _ _ _ _ _ Hrun) as [(H & _) | H]; [contradiction | exact H].
Qed.

Lemma OnStart_gated (fuel : nat) (s s' : State E) (out : Outcome) (evs : list Event) :
  OnStart E json_Unmarshal fuel s = (out, s', evs) ->
  (out = Returned None /\
   exists before after,
     evs = (before ++ EvSelect question true true :: after)%list /\
     Forall idleEvent before)
  \/ Forall idleEvent evs.
Proof.
  rewrite OnStart_split. intros Hrun.
  pose proof (snapshot_idle s) as I1.
  destruct (snapshot E s) as [[[e|] s1] ev1]; cbn [snd] in I1.
  { apply triple_eq in Hrun. destruct Hrun as (_ & _ & <-). now right. }
  destruct (planAndCommit E json_Unmarshal fuel s1) as [[out2 s2] ev2] eqn:Hplan.
  pose proof (planAndCommit_gated _ _ _ _ _ Hplan) as G.
  destruct out2 as [r|].
  - pose proof (deferred_idle s2) as I3.
    destruct (deferred E s2) as [[[] s3] ev3]; cbn [snd] in I3.
    apply triple_eq in Hrun. destruct Hrun as (<- & _ & <-).
    destruct G as [(Hout & before & after & -> & Hb) | Hall].
    + left. split; [exact Hout|].
      exists (ev1 ++ before)%list, (after ++ ev3)%list. split.
      * rewrite <- !app_assoc. reflexivity.
      * apply Forall_app. auto.
    + right. apply Forall_app. split; [exact I1|]. apply Forall_app. auto.
  - apply triple_eq in Hrun. destruct Hrun as (<- & _ & <-).
    destruct G as [(Hout & _) | Hall]; [discriminate|].
    right. apply Forall_app. auto.
Qed.

Lemma idle_execs (l : list Event) :
  Forall idleEvent l ->
  filter isApply (execs l) = [] /\ filter isCommit (execs l) = [].
Proof.
  induction 1 as [|ev l Hev _ [IH1 IH2]]; [split; reflexivity|].
  destruct ev as [cmd out| | | |]; cbn in *; auto.
  apply orb_false_iff in Hev. destruct Hev as [-> ->]. auto.
Qed.

Lemma idle_not_changing (ev : Event) : idleEvent ev -> ~ changesHistory ev.
Proof.
  destruct ev as [cmd out| | | |]; cbn; auto. intros -> H. discriminate H.
Qed.

Lemma split_after_idle (l1 l2 pre post : list Event) (y : Event) :
  Forall idleEvent l1 ->
  changesHistory y ->
  (l1 ++ l2 = pre ++ y :: post)%list ->
  exists pre', pre = (l1 ++ pre')%list /\ l2 = (pre' ++ y :: post)%list.
Proof.
  revert pre. induction l1 as [|x l1 IH]; intros pre Hl Hy Heq.
  - now exists pre.
  - inversion Hl as [|? ? Hx Hl']; subst.
    destruct pre as [|p pre]; cbn in Heq.
    + injection Heq as -> _. now apply idle_not_changing in Hx.
    + injection Heq as -> Heq. destruct (IH pre Hl' Hy Heq) as (pre' & -> & ->).
      now exists pre'.
Qed.

(** X1: a run of [OnStart] that does not return nil (it returns an error,
    or the loop is still negotiating) has issued no patch-apply and no
    commit invocation. *)
Theorem failed_run_changes_nothing
    (fuel : nat) (s s' : State E) (out : Outcome) (evs : list Event) :
  OnStart E json_Unmarshal fuel s = (out, s', evs) ->
  out <> Returned None ->
  filter isApply (execs evs) = [] /\ filter isCommit (execs evs) = [].
Proof.
  intros Hrun Hout.
  destruct (OnStart_gated _ _ _ _ _ Hrun) as [(H & _) | H]; [contradiction|].
  now apply idle_execs.
Qed.

(** X2: every patch-apply and every commit invocation of a run comes after
    the user has accepted a plan, and such a run returns nil. *)
Theorem changes_only_after_acceptance
    (fuel : nat) (s s' : State E) (out : Outcome) (evs pre post : list Event)
    (cmd : Command) (o : error + Result) :
  OnStart E json_Unmarshal fuel s = (out, s', evs) ->
  evs = (pre ++ EvExec cmd o :: post)%list ->
  isApply cmd || isCommit cmd = true ->
  In (EvSelect question true true) pre /\ out = Returned None.
Proof.
  intros Hrun Hevs Hcmd.
  destruct (OnStart_gated _ _ _ _ _ Hrun) as [(Hout & before & after & Heq & Hb) | Hall].
  - split; [|exact Hout]. rewrite Heq in Hevs.
    destruct (split_after_idle before _ pre post (EvExec cmd o) Hb Hcmd Hevs)
      as (pre' & -> & Hrest).
    destruct pre' as [|p pre']; cbn in Hrest.
    + discriminate Hrest.
    + injection Hrest as <- _. apply in_or_app. right. now left.
  - exfalso. rewrite Hevs in Hall. apply Forall_app in Hall. destruct Hall as [_ Hall].
    inversion Hall as [|? ? Hx _]; subst. now apply idle_not_changing in Hx.
Qed.

(** ** The executor, action by action *)

(** The three ways the loop body can go for one action, from the results of
    its commands. *)
Lemma applyAction_cases (i : nat) (a : action) (s : State E) :
  exists out1 w1,
    console_Exec E (gitApply (ensureNewline (Patch a))) (world s) = (out1, w1) /\
    ((failed out1 = true /\
      applyAction E i a s =
        ([applyError i out1], mkState w1 (conversation s),
         [EvExec (gitApply (ensureNewline (Patch a))) out1]))
     \/
     (failed out1 = false /\
      exists out2 w2,
        console_Exec E (gitCommit (CommitMessage a)) w1 = (out2, w2) /\
        ((failed out2 = true /\
          applyAction E i a s =
            ([commitError i out2], mkState w2 (conversation s),
             [EvExec (gitApply (ensureNewline (Patch a))) out1;
              EvExec (gitCommit (CommitMessage a)) out2]))
         \/
         (failed out2 = false /\
          applyAction E i a s =
            ([], mkState w2 (conversation s),
             [EvExec (gitApply (ensureNewline (Patch a))) out1;
              EvExec (gitCommit (CommitMessage a)) out2;
              EvLog LInfo ("Committed " ++ CommitMessage a)]))))).
Proof.
  destruct (console_Exec E (gitApply (ensureNewline (Patch a))) (world s))
    as [out1 w1] eqn:H1.
  exists out1, w1. split; [reflexivity|].
  destruct (failed out1) eqn:Hf1.
  { left. split; [reflexivity|]. exact (applyAction_apply_failed i a s H1 Hf1). }
  right. split; [reflexivity|].
  destruct (console_Exec E (gitCommit (CommitMessage a)) w1) as [out2 w2] eqn:H2.
  exists out2, w2. split; [reflexivity|].
  destruct (failed out2) eqn:Hf2.
  - left. split; [reflexivity|]. exact (applyAction_commit_failed i a s H1 Hf1 H2 Hf2).
  - right. split; [reflexivity|]. exact (applyAction_committed i a s H1 Hf1 H2 Hf2).
Qed.

Lemma isConfirmation_committed (msg : string) :
  isConfirmation (EvLog LInfo ("Committed " ++ msg)) = true.
Proof. reflexivity. Qed.

Lemma confirmations_app (l1 l2 : list Event) :
  confirmations (l1 ++ l2) = confirmations l1 + confirmations l2.
Proof. unfold confirmations. now rewrite filter_app, length_app. Qed.

(** One action gives one apply, at most one commit, and either one error
    or one confirmation. *)
Lemma applyAction_tally (i : nat) (a : action) (s : State E) :
  let '(errs, _, evs) := applyAction E i a s in
  filter isApply (execs evs) = [gitApply (ensureNewline (Patch a))] /\
  List.length errs + confirmations evs = 1 /\
  List.length (filter isCommit (execs evs)) <= 1 /\
  confirmations evs <= List.length (filter isCommit (execs evs)).
Proof.
  destruct (applyAction_cases i a s)
    as (out1 & w1 & _ & [(_ & ->) | (_ & out2 & w2 & _ & [(_ & ->) | (_ & ->)])]);
    cbn; repeat split; lia.
Qed.

(** X3: whatever fails, the executor attempts the patch-apply of every
    action of the plan exactly once, in the order of the plan, each with
    the action's patch made to end with a newline. *)
Theorem every_action_is_applied_once
    (plan : list action) (i : nat) (acc : list error) (s : State E) :
  filter isApply (execs (snd (applyActions E i plan acc s)))
    = map (fun a => gitApply (ensureNewline (Patch a))) plan.
Proof.
  revert i acc s. induction plan as [|a plan IH]; intros i acc s; [reflexivity|].
  pose proof (applyAction_tally i a s) as T.
  destruct (applyAction E i a s) as [[errs s1] ev1] eqn:Ha.
  destruct T as (T1 & _).
  rewrite (applyActions_cons _ _ _ _ _ Ha).
  specialize (IH (S i) (acc ++ errs)%list s1).
  destruct (applyActions E (S i) plan (acc ++ errs)%list s1) as [[r s2] ev2].
  cbn [snd] in *. rewrite execs_app, filter_app, T1, IH. reflexivity.
Qed.

(** X4: every action of the plan ends in exactly one of an error in the
    list and a logged confirmation, so the number of errors and the number
    of confirmations add up to the number of actions; and no action is
    confirmed without a commit invocation. *)
Theorem errors_and_confirmations_partition (plan : list action) (s : State E) :
  let '(errors, _, evs) := applyActions E 0 plan [] s in
  List.length errors + confirmations evs = List.length plan /\
  confirmations evs <= List.length (filter isCommit (execs evs)) /\
  List.length (filter isCommit (execs evs)) <= List.length plan.
Proof.
  assert (G : forall i acc s0,
             let '(errors, _, evs) := applyActions E i plan acc s0 in
             List.length errors + confirmations evs = List.length acc + List.length plan /\
             confirmations evs <= List.length (filter isCommit (execs evs)) /\
             List.length (filter isCommit (execs evs)) <= List.length plan).
  { induction plan as [|a plan IH]; intros i acc s0.
    - cbn. repeat split; lia.
    - pose proof (applyAction_tally i a s0) as T.
      destruct (applyAction E i a s0) as [[errs s1] ev1] eqn:Ha.
      destruct T as (_ & T2 & T3 & T4).
      rewrite (applyActions_cons _ _ _ _ _ Ha).
      specialize (IH (S i) (acc ++ errs)%list s1).
      destruct (applyActions E (S i) plan (acc ++ errs)%list s1) as [[r s2] ev2].
      destruct IH as (I1 & I2 & I3).
      rewrite length_app in I1.
      rewrite confirmations_app, execs_app, filter_app, length_app.
      cbn [List.length]. repeat split; lia. }
  specialize (G 0 [] s).
  destruct (applyActions E 0 plan [] s) as [[errors s'] evs]. exact G.
Qed.

(** X5: an action whose patch applied and whose commit invocation fails
    adds exactly one error, tagged with its index from zero, and is not
    confirmed; nothing is issued to take its patch out of the index again,
    and the actions after it are processed from the next index. *)
Theorem failed_commit_is_isolated
    (pre post : list action) (a : action) (s : State E)
    errs1 s1 ev1 out1 w1 out2 w2 errs3 s3 ev3 :
  applyActions E 0 pre [] s = (errs1, s1, ev1) ->
  console_Exec E (gitApply (ensureNewline (Patch a))) (world s1) = (out1, w1) ->
  failed out1 = false ->
  console_Exec E (gitCommit (CommitMessage a)) w1 = (out2, w2) ->
  failed out2 = true ->
  applyActions E (S (List.length pre)) post [] (mkState w2 (conversation s1))
    = (errs3, s3, ev3) ->
  applyActions E 0 (pre ++ a :: post) [] s =
    ((errs1 ++ [commitError (List.length pre) out2] ++ errs3)%list,
     s3,
     (ev1 ++ [EvExec (gitApply (ensureNewline (Patch a))) out1;
              EvExec (gitCommit (CommitMessage a)) out2] ++ ev3)%list).
Proof.
  intros H1 Hx1 Hf1 Hx2 Hf2 H3.
  rewrite applyActions_app, H1, Nat.add_0_r.
  rewrite (applyActions_cons _ _ _ _ _
             (applyAction_commit_failed _ a s1 Hx1 Hf1 Hx2 Hf2)).
  rewrite applyActions_acc, H3. now rewrite <- app_assoc.
Qed.

(** ** The conversation sent to the backend *)

Lemma snapshot_conversation (s s1 : State E) (ev1 : list Event) :
  snapshot E s = (None, s1, ev1) ->
  conversation s1 = (conversation s ++ [NewMessage RoleSystem agentPrompt])%list.
Proof.
  unfold snapshot.
  rewrite (bind_run _ _ _ (log_run _ _ _)).
  rewrite (bind_run _ _ _ (AddMessage_run _ _)).
  set (s0 := mkState _ _).
  destruct (console_Exec E gitRevParse (world s0)) as [o1 w1] eqn:H1.
  rewrite (bind_run _ _ _ (checkGitRepository_run s0 H1)).
  destruct (failed o1); [discriminate|].
  rewrite (bind_run _ _ _ (log_run _ _ _)).
  set (s1' := mkState w1 _).
  destruct (time_Now E (world s1')) as [t w2] eqn:Ht.
  destruct (console_Exec E (gitStashPush ("nomi-stash-" ++ t)) w2) as [o2 w3] eqn:H2.
  rewrite (bind_run _ _ _ (stashChanges_run s1' Ht H2)).
  destruct (stashVerdict o2); [discriminate|].
  set (s2' := mkState w3 _).
  destruct (console_Exec E gitStashApply (world s2')) as [o3 w4] eqn:H3.
  destruct (failed o3) eqn:Hf3.
  - rewrite (bind_run _ _ _ (unstashChanges_apply_failed s2' H3 Hf3)). discriminate.
  - destruct (console_Exec E gitReset w4) as [o4 w5] eqn:H4.
    rewrite (bind_run _ _ _ (unstashChanges_run s2' H3 Hf3 H4)).
    destruct (failed o4); [discriminate|].
    intros H. apply triple_eq in H. destruct H as (_ & <- & _). reflexivity.
Qed.

Lemma negotiate_first_transcript (fuel : nat) (s s' : State E) (out : Outcome)
    (evs : list Event) c reply rest :
  negotiate E json_Unmarshal fuel s = (out, s', evs) ->
  generates evs = (c, reply) :: rest ->
  c = conversation s.
Proof.
  destruct fuel as [|fuel]; intros Hrun Hgen.
  { apply triple_eq in Hrun. destruct Hrun as (_ & _ & <-). discriminate. }
  destruct (negotiate_requests fuel s (w1 := snd (ctx_Done E (world s)))) as (r & tl & H);
    [| rewrite Hrun in H; cbn [snd] in H; subst evs; cbn in Hgen; congruence ].
  destruct (ctx_Done E (world s)) as [[|] w1] eqn:Hd; [|reflexivity].
  rewrite (negotiate_cancelled fuel s Hd) in Hrun.
  apply triple_eq in Hrun. destruct Hrun as (_ & _ & <-). discriminate.
Qed.

(** X6: the first request to the backend carries the conversation handed to
    [OnStart] followed by exactly two messages, the system instruction and,
    as a user message, the diff of the stash, and that diff is not empty. *)
Theorem first_request_is_prompt_and_diff
    (fuel : nat) (s s' : State E) (out : Outcome) (evs : list Event)
    (c : Conversation) (reply : error + string)
    (rest : list (Conversation * (error + string))) :
  OnStart E json_Unmarshal fuel s = (out, s', evs) ->
  generates evs = (c, reply) :: rest ->
  exists result,
    In (EvExec gitStashShow (inr result)) evs /\
    Success result = true /\
    Output result <> EmptyString /\
    c = (conversation s ++ [NewMessage RoleSystem agentPrompt;
                            NewMessage RoleUser (Output result)])%list.
Proof.
  rewrite OnStart_split. intros Hrun Hgen.
  pose proof (snapshot_quiet s) as Q1.
  destruct (snapshot E s) as [[[e|] s1] ev1] eqn:Hsnap; cbn [snd] in Q1.
  { apply triple_eq in Hrun. destruct Hrun as (_ & _ & <-).
    rewrite (quiet_generates _ Q1) in Hgen. discriminate. }
  pose proof (snapshot_conversation _ _ _ Hsnap) as Hconv.
  assert (Hplan : exists out2 s2 ev2 ev3,
             planAndCommit E json_Unmarshal fuel s1 = (out2, s2, ev2) /\
             evs = (ev1 ++ ev2 ++ ev3)%list /\ generates ev3 = []).
  { destruct (planAndCommit E json_Unmarshal fuel s1) as [[[r|] s2] ev2].
    - pose proof (deferred_emits_logs s2) as Hd.
      destruct (deferred E s2) as [[[] s3] ev3]; cbn [snd] in Hd.
      apply triple_eq in Hrun. destruct Hrun as (_ & _ & <-).
      now exists (Returned r), s2, ev2, ev3.
    - apply triple_eq in Hrun. destruct Hrun as (_ & _ & <-).
      exists OutOfFuel, s2, ev2, []. now rewrite app_nil_r. }
  destruct Hplan as (out2 & s2 & ev2 & ev3 & Hplan & -> & Hg3).
  rewrite !generates_app, (quiet_generates _ Q1), Hg3, app_nil_r in Hgen.
  cbn [app] in Hgen.
  destruct (console_Exec E gitStashShow (world s1)) as [o w] eqn:Hx.
  destruct (failed o) eqn:Hf.
  { rewrite (planAndCommit_diff_failed fuel s1 Hx Hf) in Hplan.
    apply triple_eq in Hplan. destruct Hplan as (_ & _ & <-). discriminate. }
  destruct o as [e|r]; [discriminate|]. simpl in Hf. apply negb_false_iff in Hf.
  destruct (String.eqb_spec (Output r) EmptyString) as [Ho|Ho].
  { rewrite (planAndCommit_empty fuel s1 Hx Hf Ho) in Hplan.
    apply triple_eq in Hplan. destruct Hplan as (_ & _ & <-). discriminate. }
  rewrite (planAndCommit_negotiate fuel s1 Hx Hf Ho) in Hplan.
  destruct (negotiate E json_Unmarshal fuel _) as [[out3 s3] ev4] eqn:Hnext.
  apply triple_eq in Hplan. destruct Hplan as (_ & _ & <-).
  rewrite generates_app in Hgen. cbn [generates flat_map generateOf app] in Hgen.
  exists r. repeat split; auto.
  - apply in_or_app. right. apply in_or_app. left.
    apply in_or_app. left. right. now left.
  - rewrite (negotiate_first_transcript _ _ _ _ _ _ _ _ Hnext Hgen).
    cbn [conversation]. rewrite Hconv, <- app_assoc. reflexivity.
Qed.

(** ** No bound on the rounds *)

(** X7: the loop has no bound of its own on the number of rounds. As long
    as the context is not cancelled, the backend answers with a plan that
    decodes and the user rejects it, every round is followed by another
    one: with room for [fuel] rounds the loop is still running after
    [fuel] requests, and has issued no command. *)
Theorem refinement_rounds_are_unbounded (live : World E -> Prop) :
  (forall w c, live w ->
     exists w1 resp c1 w2 plan w3 text w4,
       ctx_Done E w = (false, w1) /\
       textToJSON_Do E c w1 = (inr resp, c1, w2) /\
       json_Unmarshal resp = inr plan /\
       selector_SelectBool E question true w2 = (false, w3) /\
       inputArea_Read E ">>> " w3 = (text, w4) /\
       live w4) ->
  forall fuel s,
    live (world s) ->
    fst (fst (negotiate E json_Unmarshal fuel s)) = OutOfFuel /\
    List.length (generates (snd (negotiate E json_Unmarshal fuel s))) = fuel /\
    execs (snd (negotiate E json_Unmarshal fuel s)) = [].
Proof.
  intros Hlive. induction fuel as [|fuel IH]; intros s Hs; [repeat split|].
  destruct (Hlive (world s) (conversation s) Hs)
    as (w1 & resp & c1 & w2 & plan & w3 & text & w4 & Hd & Hg & Hu & Hsel & Hr & Hnext).
  rewrite (negotiate_rejected fuel s Hd Hg Hu Hsel Hr).
  specialize (IH (mkState w4 (c1 ++ [NewMessage RoleUser text])%list) Hnext).
  destruct (negotiate E json_Unmarshal fuel _) as [[out2 s2] ev2].
  cbn [fst snd] in *. destruct IH as (I1 & I2 & I3).
  rewrite !generates_app, !execs_app, proposal_generates, proposal_execs, I3.
  cbn. rewrite I2. auto.
Qed.

(** ** Early returns and the release *)

(** X8: when the repository check fails, [OnStart] returns the fixed
    message (whatever the console reported) having issued that one command
    only: nothing is stashed. *)
Theorem failed_check_stops_before_capture
    (fuel : nat) (s : State E) (out : error + Result) (w : World E) :
  console_Exec E gitRevParse (world s) = (out, w) ->
  failed out = true ->
  OnStart E json_Unmarshal fuel s =
    (Returned (Some "not a git repository: not a git repository"),
     mkState w (conversation s ++ [NewMessage RoleSystem agentPrompt])%list,
     [EvLog LInfo "Starting commit usecase"; EvExec gitRevParse out]).
Proof.
  intros Hx Hf. unfold OnStart.
  rewrite (bind_run _ _ _ (log_run _ _ _)).
  rewrite (bind_run _ _ _ (AddMessage_run _ _)).
  rewrite (bind_run _ _ _ (checkGitRepository_run (mkState (world s) _) Hx)), Hf.
  reflexivity.
Qed.

(** X9: when the diff of the stash cannot be shown, [OnStart] returns the
    fixed message, not what the console reported, asks the backend nothing,
    and still drops the stash. *)
Theorem failed_diff_is_released
    (fuel : nat) (s s1 : State E) (ev1 : list Event) (out : error + Result)
    (w : World E) :
  snapshot E s = (None, s1, ev1) ->
  console_Exec E gitStashShow (world s1) = (out, w) ->
  failed out = true ->
  exists s' release,
    OnStart E json_Unmarshal fuel s =
      (Returned (Some "failed to get stash diff: failed to show stash diff"), s',
       (ev1 ++ [EvLog LInfo "Getting stash diff"; EvExec gitStashShow out] ++ release)%list)
    /\ execs release = [gitStashDrop]
    /\ generates (ev1 ++ release) = [].
Proof.
  intros Hsnap Hx Hf. rewrite OnStart_split, Hsnap.
  rewrite (planAndCommit_diff_failed fuel s1 Hx Hf).
  pose proof (snapshot_quiet s) as Q1. rewrite Hsnap in Q1. cbn [snd] in Q1.
  destruct (deferred_releases (mkState w (conversation s1))) as [_ Hd].
  pose proof (deferred_emits_logs (mkState w (conversation s1))) as Hg.
  destruct (deferred E _) as [[[] s3] ev3]; cbn [snd] in *.
  exists s3, ev3. repeat split; auto.
  now rewrite generates_app, (quiet_generates _ Q1), Hg.
Qed.

(** X10: a failure of the release is logged and changes nothing else: the
    value [OnStart] returns is the one the steps before the release
    produced, whether the stash-drop invocation succeeds or not. *)
Theorem release_failure_is_only_logged
    (fuel : nat) (s s1 s2 : State E) (ev1 ev2 : list Event) (r : option error)
    (out : error + Result) (w : World E) :
  snapshot E s = (None, s1, ev1) ->
  planAndCommit E json_Unmarshal fuel s1 = (Returned r, s2, ev2) ->
  console_Exec E gitStashDrop (world s2) = (out, w) ->
  OnStart E json_Unmarshal fuel s =
    (Returned r, mkState w (conversation s2),
     (ev1 ++ ev2 ++
      EvExec gitStashDrop out ::
      (if failed out
       then [EvLog LError "Failed to delete stash: failed to delete stash"]
       else []))%list).
Proof.
  intros Hsnap Hplan Hx.
  rewrite OnStart_split, Hsnap, Hplan, (deferred_run s2 Hx). reflexivity.
Qed.
(** ** The errors of a run *)

(** How the loop can end in an error, with the event the run ends on. *)
Lemma negotiate_error (fuel : nat) (s s' : State E) (evs : list Event) (e : error) :
  negotiate E json_Unmarshal fuel s = (Returned (Some e), s', evs) ->
  (e = "context cancelled" /\
   (evs = [] \/ exists pre text, evs = (pre ++ [EvRead ">>> " text])%list)) \/
  (exists pre transcript err,
     evs = (pre ++ [EvGenerate transcript (inl err)])%list /\
     e = "failed to convert text to JSON: " ++ err) \/
  (exists pre transcript resp err,
     evs = (pre ++ [EvGenerate transcript (inr resp);
                    EvLog LDebug ("Raw Commit plan: " ++ resp)])%list /\
     json_Unmarshal resp = inl err /\
     e = "failed to unmarshal commit plan: " ++ err).
Proof.
  revert s s' evs. induction fuel as [|fuel IH]; intros s s' evs Hrun.
  { apply triple_eq in Hrun. destruct Hrun as (H & _). discriminate H. }
  destruct (ctx_Done E (world s)) as [[|] w1] eqn:Hd.
  { rewrite (negotiate_cancelled fuel s Hd) in Hrun.
    apply triple_eq in Hrun. destruct Hrun as (H & _ & <-). injection H as <-.
    left. split; [reflexivity | now left]. }
  destruct (textToJSON_Do E (conversation s) w1) as [[[e1|resp] c1] w2] eqn:Hg.
  { rewrite (negotiate_backend_failed fuel s Hd Hg) in Hrun.
    apply triple_eq in Hrun. destruct Hrun as (H & _ & <-). injection H as <-.
    right; left. exists [EvLog LInfo "Creating commit plan"], (conversation s), e1.
    split; reflexivity. }
  destruct (json_Unmarshal resp) as [e2|plan] eqn:Hu.
  { rewrite (negotiate_malformed fuel s Hd Hg Hu) in Hrun.
    apply triple_eq in Hrun. destruct Hrun as (H & _ & <-). injection H as <-.
    right; right. exists [EvLog LInfo "Creating commit plan"], (conversation s), resp, e2.
    repeat split; auto. }
  destruct (selector_SelectBool E question true w2) as [[|] w3] eqn:Hs.
  - rewrite (negotiate_accepted fuel s Hd Hg Hu Hs) in Hrun.
    destruct (applyActions E 0 (CommitPlan plan) [] _) as [[errors s2] ev2].
    apply triple_eq in Hrun. destruct Hrun as (H & _). discriminate H.
  - destruct (inputArea_Read E ">>> " w3) as [text w4] eqn:Hr.
    rewrite (negotiate_rejected fuel s Hd Hg Hu Hs Hr) in Hrun.
    destruct (negotiate E json_Unmarshal fuel _) as [[out2 s2] ev2] eqn:Hnext.
    apply triple_eq in Hrun. destruct Hrun as (-> & _ & <-).
    set (round := proposal (conversation s) resp plan).
    destruct (IH _ _ _ Hnext) as [(-> & [-> | (pre & txt & ->)])
                                 | [(pre & c & err & -> & ->)
                                   | (pre & c & r & err & -> & Herr & ->)]].
    + left. split; [reflexivity|]. right.
      exists (round ++ [EvSelect question true false])%list, text.
      rewrite <- !app_assoc. reflexivity.
    + left. split; [reflexivity|]. right.
      exists (round ++ [EvSelect question true false; EvRead ">>> " text] ++ pre)%list, txt.
      rewrite <- !app_assoc. reflexivity.
    + right; left.
      exists (round ++ [EvSelect question true false; EvRead ">>> " text] ++ pre)%list, c, err.
      split; [|reflexivity]. rewrite <- !app_assoc. reflexivity.
    + right; right.
      exists (round ++ [EvSelect question true false; EvRead ">>> " text] ++ pre)%list,
        c, r, err.
      split; [|split; [exact Herr | reflexivity]]. rewrite <- !app_assoc. reflexivity.
Qed.

(** The three steps before the release is deferred. *)
Lemma snapshot_error (s s1 : State E) (ev1 : list Event) (e : error) :
  snapshot E s = (Some e, s1, ev1) -> failedStep json_Unmarshal ev1 e.
Proof.
  unfold snapshot.
  rewrite (bind_run _ _ _ (log_run _ _ _)).
  rewrite (bind_run _ _ _ (AddMessage_run _ _)).
  set (s0 := mkState _ _).
  destruct (console_Exec E gitRevParse (world s0)) as [o1 w1] eqn:H1.
  rewrite (bind_run _ _ _ (checkGitRepository_run s0 H1)).
  destruct (failed o1) eqn:Hf1.
  { intros H. apply triple_eq in H. destruct H as (He & _ & <-). injection He as <-.
    exists [EvLog LInfo "Starting commit usecase"]. left. exists o1. auto. }
  rewrite (bind_run _ _ _ (log_run _ _ _)).
  set (s1' := mkState w1 _).
  destruct (time_Now E (world s1')) as [t w2] eqn:Ht.
  destruct (console_Exec E (gitStashPush ("nomi-stash-" ++ t)) w2) as [o2 w3] eqn:H2.
  rewrite (bind_run _ _ _ (stashChanges_run s1' Ht H2)).
  destruct (stashVerdict o2) as [err|] eqn:Hv.
  { intros H. apply triple_eq in H. destruct H as (He & _ & <-). injection He as <-.
    exists [EvLog LInfo "Starting commit usecase"; EvExec gitRevParse o1;
            EvLog LInfo "Stashing changes"].
    right; left. exists ("nomi-stash-" ++ t), o2, err. auto. }
  set (s2' := mkState w3 _).
  destruct (console_Exec E gitStashApply (world s2')) as [o3 w4] eqn:H3.
  destruct (failed o3) eqn:Hf3.
  { rewrite (bind_run _ _ _ (unstashChanges_apply_failed s2' H3 Hf3)).
    intros H. apply triple_eq in H. destruct H as (He & _ & <-). injection He as <-.
    exists [EvLog LInfo "Starting commit usecase"; EvExec gitRevParse o1;
            EvLog LInfo "Stashing changes";
            EvExec (gitStashPush ("nomi-stash-" ++ t)) o2].
    right; right; left. exists ("nomi-stash-" ++ t), o3. auto. }
  destruct (console_Exec E gitReset w4) as [o4 w5] eqn:H4.
  rewrite (bind_run _ _ _ (unstashChanges_run s2' H3 Hf3 H4)).
  destruct (failed o4) eqn:Hf4.
  { intros H. apply triple_eq in H. destruct H as (He & _ & <-). injection He as <-.
    exists [EvLog LInfo "Starting commit usecase"; EvExec gitRevParse o1;
            EvLog LInfo "Stashing changes";
            EvExec (gitStashPush ("nomi-stash-" ++ t)) o2;
            EvExec gitStashApply o3].
    right; right; right; left. exists ("nomi-stash-" ++ t), o4. auto. }
  intros H. apply triple_eq in H. destruct H as (He & _). discriminate He.
Qed.

(** X17: an error [OnStart] returns is the error of the step the run
    took last, and that step failed: the repository check, the capture,
    one of the two commands of the replay, the diff, the poll of the
    context, the request to the backend, or the decoding of its reply.
    Before the release is deferred nothing follows the failed command;
    afterwards only the release does. No error of an apply or commit
    step is ever returned. *)
Theorem errors_name_the_failed_step
    (fuel : nat) (s s' : State E) (evs : list Event) (e : error) :
  OnStart E json_Unmarshal fuel s = (Returned (Some e), s', evs) ->
  failedStep json_Unmarshal evs e.
Proof.
  rewrite OnStart_split.
  destruct (snapshot E s) as [[[e1|] s1] ev1] eqn:Hsnap.
  { intros H. apply triple_eq in H. destruct H as (H & _ & <-). injection H as <-.
    exact (snapshot_error _ _ _ _ Hsnap). }
  destruct (console_Exec E gitStashShow (world s1)) as [o w] eqn:Hx.
  destruct (failed o) eqn:Hf.
  { rewrite (planAndCommit_diff_failed fuel s1 Hx Hf).
    destruct (console_Exec E gitStashDrop w) as [drop w'] eqn:Hdrop.
    rewrite (deferred_run (mkState w (conversation s1)) Hdrop).
    intros H. apply triple_eq in H. destruct H as (H & _ & <-). injection H as <-.
    exists (ev1 ++ [EvLog LInfo "Getting stash diff"])%list.
    do 4 right; left. exists o, drop.
    split; [|auto]. rewrite <- !app_assoc. reflexivity. }
  destruct o as [e0|r]; [discriminate|]. simpl in Hf. apply negb_false_iff in Hf.
  destruct (String.eqb_spec (Output r) EmptyString) as [Ho|Ho].
  { rewrite (planAndCommit_empty fuel s1 Hx Hf Ho).
    destruct (deferred E _) as [[[] s3] ev3].
    intros H. apply triple_eq in H. destruct H as (H & _). discriminate H. }
  rewrite (planAndCommit_negotiate fuel s1 Hx Hf Ho).
  destruct (negotiate E json_Unmarshal fuel _) as [[[r2|] s2] ev2] eqn:Hnext.
  2:{ intros H. apply triple_eq in H. destruct H as (H & _). discriminate H. }
  destruct (console_Exec E gitStashDrop (world s2)) as [drop w'] eqn:Hdrop.
  rewrite (deferred_run s2 Hdrop).
  intros H. apply triple_eq in H. destruct H as (H & _ & <-). injection H as ->.
  set (diffed := [EvLog LInfo "Getting stash diff"; EvExec gitStashShow (inr r)]).
  set (shown := EvLog LDebug ("Stash diff: " ++ Output r)).
  destruct (negotiate_error _ _ _ _ _ Hnext)
    as [(-> & [-> | (pre & txt & ->)])
       | [(pre & c & err & -> & ->) | (pre & c & resp & err & -> & Herr & ->)]].
  - exists (ev1 ++ diffed)%list. do 5 right; left. exists shown, drop.
    split; [|split; [left; now exists (Output r) | reflexivity]].
    subst diffed shown. repeat first [rewrite <- app_assoc | progress cbn [app]]. reflexivity.
  - exists (ev1 ++ diffed ++ shown :: pre)%list. do 5 right; left.
    exists (EvRead ">>> " txt), drop.
    split; [|split; [right; now exists txt | reflexivity]].
    subst diffed shown. repeat first [rewrite <- app_assoc | progress cbn [app]]. reflexivity.
  - exists (ev1 ++ diffed ++ shown :: pre)%list. do 6 right; left.
    exists c, err, drop. split; [|reflexivity].
    subst diffed shown. repeat first [rewrite <- app_assoc | progress cbn [app]]. reflexivity.
  - exists (ev1 ++ diffed ++ shown :: pre)%list. do 7 right.
    exists c, resp, err, drop. split; [|split; [exact Herr | reflexivity]].
    subst diffed shown. repeat first [rewrite <- app_assoc | progress cbn [app]]. reflexivity.
Qed.

End Facts.

(** ** The properties on the sample runs *)

(** C1 does not hold as stated: when the repository check, the capture or
    the replay fails, [OnStart] returns before the release is deferred, and
    no stash-drop invocation is issued at all. *)
Lemma release_skipped_on_early_failure :
  fst (fst (Sample.run Sample.notARepository))
    = Returned (Some "not a git repository: not a git repository") /\
  releases (snd (Sample.run Sample.notARepository)) = 0 /\
  fst (fst (Sample.run Sample.captureFails))
    = Returned (Some ("failed to stash changes: failed to stash changes: "
                      ++ "fatal: unable to write new index file")) /\
  releases (snd (Sample.run Sample.captureFails)) = 0 /\
  fst (fst (Sample.run Sample.replayFails))
    = Returned (Some "failed to unstash changes: failed to unstash changes") /\
  releases (snd (Sample.run Sample.replayFails)) = 0.
Proof. vm_compute. repeat split. Qed.

(** A failure after the release has been deferred: the diff cannot be
    shown, and the stash is dropped once. *)
Lemma release_once_witness :
  fst (fst (Sample.run Sample.diffFails))
    = Returned (Some "failed to get stash diff: failed to show stash diff") /\
  releases (snd (Sample.run Sample.diffFails)) = 1.
Proof.
  split; [vm_compute; reflexivity|].
  pose proof (release_once_when_deferred Fake.collaborators Sample.decode 3
                Sample.diffFails) as H.
  unfold Sample.run.
  destruct (OnStart Fake.collaborators Sample.decode 3 Sample.diffFails)
    as [[[r|] s'] evs] eqn:Hrun.
  - replace (reachesDefer Sample.diffFails) with true in H by (vm_compute; reflexivity).
    exact (proj1 H).
  - vm_compute in Hrun. discriminate Hrun.
Defined.

(** C2 fails on the code: the errors of the executor are collected and
    then dropped. On the accepted plan of three actions whose second patch
    does not apply, the executor has one error in its list, and [OnStart]
    returns nil. *)
Theorem executor_errors_are_dropped :
  fst (fst (Sample.run Sample.secondPatchFails)) = Returned None /\
  In (EvExec (gitApply (Patch Sample.a2 ++ nl))
        (inr (mkResult false EmptyString "error: patch failed")))
     (snd (Sample.run Sample.secondPatchFails)) /\
  forall w c,
    Fake.respond w = Fake.console Fake.saved Sample.diff Sample.secondFails
                       "error: patch failed" ->
    fst (fst (applyActions Fake.collaborators 0 (CommitPlan Sample.plan3) []
                (mkState (E:=Fake.collaborators) w c)))
      = ["failed to apply patch 1: error: patch failed"].
Proof.
  split; [vm_compute; reflexivity|]. split.
  - vm_compute. repeat (first [left; reflexivity | right]).
  - intros [respond replies answers lines polls] c H. cbn in H. subst respond.
    reflexivity.
Qed.

(** C3 does not hold as stated: the tag is the index from zero. In the
    plan of three actions where only the second apply fails, the one error
    recorded is tagged 1, and none is tagged 2. *)
Lemma second_failure_is_tagged_one :
  fst (fst (applyActions Fake.collaborators 0 (CommitPlan Sample.plan3) []
              Sample.secondPatchFails))
    = ["failed to apply patch 1: error: patch failed"] /\
  ~ In "failed to apply patch 2: error: patch failed"
       (fst (fst (applyActions Fake.collaborators 0 (CommitPlan Sample.plan3) []
                    Sample.secondPatchFails))) /\
  execs (snd (applyActions Fake.collaborators 0 (CommitPlan Sample.plan3) []
               Sample.secondPatchFails))
    = [gitApply (Patch Sample.a1 ++ nl); gitCommit (CommitMessage Sample.a1);
       gitApply (Patch Sample.a2 ++ nl);
       gitApply (Patch Sample.a3 ++ nl); gitCommit (CommitMessage Sample.a3)].
Proof.
  vm_compute. repeat split. intros [H|[]]. discriminate H.
Qed.

(** The three-action case of C3 on the scripted console. *)
Lemma failed_apply_witness :
  applyActions Fake.collaborators 0 [Sample.a1; Sample.a2; Sample.a3] []
    Sample.secondPatchFails
  = (["failed to apply patch 1: error: patch failed"],
     Sample.secondPatchFails,
     [EvExec (gitApply (Patch Sample.a1 ++ nl)) (inr (mkResult true EmptyString EmptyString));
      EvExec (gitCommit (CommitMessage Sample.a1))
        (inr (mkResult true EmptyString EmptyString));
      EvLog LInfo ("Committed " ++ CommitMessage Sample.a1);
      EvExec (gitApply (Patch Sample.a2 ++ nl))
        (inr (mkResult false EmptyString "error: patch failed"));
      EvExec (gitApply (Patch Sample.a3 ++ nl)) (inr (mkResult true EmptyString EmptyString));
      EvExec (gitCommit (CommitMessage Sample.a3))
        (inr (mkResult true EmptyString EmptyString));
      EvLog LInfo ("Committed " ++ CommitMessage Sample.a3)]).
Proof.
  exact (proj2 (failed_apply_is_isolated Fake.collaborators)
           Sample.a1 Sample.a2 Sample.a3 Sample.secondPatchFails
           (inr (mkResult true EmptyString EmptyString)) (world Sample.secondPatchFails)
           (inr (mkResult true EmptyString EmptyString)) (world Sample.secondPatchFails)
           (inr (mkResult false EmptyString "error: patch failed"))
           (world Sample.secondPatchFails)
           (inr (mkResult true EmptyString EmptyString)) (world Sample.secondPatchFails)
           (inr (mkResult true EmptyString EmptyString)) (world Sample.secondPatchFails)
           eq_refl eq_refl eq_refl eq_refl eq_refl eq_refl eq_refl eq_refl eq_refl eq_refl).
Defined.



(** C5 does not hold as stated: on an empty diff the run also issues the
    repository check and the diff extraction, which are neither capture,
    restore nor release. *)
Lemma empty_diff_runs_check_and_diff :
  fst (fst (Sample.run Sample.emptyDiff)) = Returned None /\
  execs (snd (Sample.run Sample.emptyDiff))
    = [gitRevParse; gitStashPush "nomi-stash-20241105T093000"; gitStashApply; gitReset;
       gitStashShow; gitStashDrop] /\
  forallb captureRestoreRelease (execs (snd (Sample.run Sample.emptyDiff))) = false /\
  captureRestoreRelease gitRevParse = false /\
  captureRestoreRelease gitStashShow = false.
Proof. vm_compute. repeat split. Qed.

(** The run on an empty diff. *)
Lemma empty_diff_witness :
  In (EvExec gitStashShow (inr (mkResult true EmptyString EmptyString)))
     (snd (Sample.run Sample.emptyDiff)) /\
  fst (fst (Sample.run Sample.emptyDiff)) = Returned None /\
  generates (snd (Sample.run Sample.emptyDiff)) = [] /\
  filter isCommit (execs (snd (Sample.run Sample.emptyDiff))) = [] /\
  filter isApply (execs (snd (Sample.run Sample.emptyDiff))) = [].
Proof.
  assert (Hin : In (EvExec gitStashShow (inr (mkResult true EmptyString EmptyString)))
                   (snd (Sample.run Sample.emptyDiff))).
  { vm_compute. repeat (first [left; reflexivity | right]). }
  split; [exact Hin|].
  destruct (empty_diff_nothing_to_commit Fake.collaborators Sample.decode 3
              Sample.emptyDiff
              (snd (fst (Sample.run Sample.emptyDiff)))
              (fst (fst (Sample.run Sample.emptyDiff)))
              (snd (Sample.run Sample.emptyDiff))
              (mkResult true EmptyString EmptyString))
    as (H1 & H2 & H3 & H4 & _); auto.
Defined.



(** C7 does not hold as stated: a rejection is not always followed by a
    fresh request. Here the user rejects the plan and gives the refinement
    text, the context is cancelled before the next round, and [OnStart]
    returns having asked the backend once, before the rejection. *)
Lemma rejection_then_cancellation :
  fst (fst (Sample.run Sample.rejectedThenCancelled))
    = Returned (Some "context cancelled") /\
  In (EvSelect question true false) (snd (Sample.run Sample.rejectedThenCancelled)) /\
  In (EvRead ">>> " Sample.refinement) (snd (Sample.run Sample.rejectedThenCancelled)) /\
  generates (snd (Sample.run Sample.rejectedThenCancelled))
    = [(Sample.transcript, inr (Fake.encode Sample.plan3))].
Proof.
  vm_compute. repeat split; repeat (first [left; reflexivity | right]).
Qed.

(** The round in which the plan is rejected, and the request that follows
    it when the context is still live. *)
Lemma rejection_witness :
  ctx_Done Fake.collaborators (world Sample.atLoop) = (false, Sample.polled) /\
  inputArea_Read Fake.collaborators ">>> " Sample.rejected
    = (Sample.refinement, Sample.refined) /\
  exists reply rest,
    snd (negotiate Fake.collaborators Sample.decode 2
           (mkState (E:=Fake.collaborators) Sample.refined
              (Sample.replied ++ [NewMessage RoleUser Sample.refinement])%list))
    = EvLog LInfo "Creating commit plan"
        :: EvGenerate (Sample.replied ++ [NewMessage RoleUser Sample.refinement])%list reply
        :: rest.
Proof.
  split; [reflexivity|]. split; [reflexivity|].
  destruct (rejection_appends_refinement Fake.collaborators Sample.decode 2
              Sample.atLoop Sample.polled Sample.answered Sample.rejected Sample.refined
              (Fake.encode Sample.plan3) Sample.refinement Sample.replied Sample.plan3
              eq_refl eq_refl eq_refl eq_refl eq_refl)
    as (_ & _ & _ & H & _).
  exact (H 1 (Sample.round [inr (Fake.encode Sample.plan1)] [true] [] 1) eq_refl).
Defined.

(** A capture that fails with a message on stderr. *)
Lemma capture_failure_witness :
  snd (stashChanges Fake.collaborators Sample.captureFails)
    = [EvExec (gitStashPush "nomi-stash-20241105T093000")
         (inr (mkResult false EmptyString "fatal: unable to write new index file"))] /\
  fst (fst (stashChanges Fake.collaborators Sample.captureFails))
    = Some "failed to stash changes: fatal: unable to write new index file".
Proof.
  split; [reflexivity|].
  refine (proj1 (capture_failure_surfaces_output Fake.collaborators
                   Sample.captureFails Sample.captureFails _
                   (gitStashPush "nomi-stash-20241105T093000")
                   (mkResult false EmptyString "fatal: unable to write new index file")
                   eq_refl eq_refl) _).
  discriminate.
Defined.

(** A capture that succeeds and prints nothing. *)
Lemma capture_reference_witness :
  snd (stashChanges Fake.collaborators Sample.captureSilent)
    = [EvExec (gitStashPush "nomi-stash-20241105T093000")
         (inr (mkResult true EmptyString EmptyString))] /\
  fst (fst (stashChanges Fake.collaborators Sample.captureSilent))
    = Some "unable to retrieve stash reference".
Proof.
  split; [reflexivity|].
  exact (proj1 (proj2 (capture_needs_stash_reference Fake.collaborators
                         Sample.captureSilent Sample.captureSilent _
                         (gitStashPush "nomi-stash-20241105T093000")
                         (mkResult true EmptyString EmptyString)
                         eq_refl eq_refl)) eq_refl).
Defined.

(** A patch body without a trailing newline reaches the console with one
    appended; one that ends in a newline reaches it as it is. *)
Example patch_newline_example :
  execs (snd (applyAction Fake.collaborators 0 Sample.a1 Sample.emptyDiff))
    = [gitApply ("diff --git a/parser/lex.go b/parser/lex.go" ++ nl);
       gitCommit "feat(parser): add lexer"] /\
  execs (snd (applyAction Fake.collaborators 0
                (mkAction "parser/lex.go" (Patch Sample.a1 ++ nl) "feat(parser): add lexer")
                Sample.emptyDiff))
    = [gitApply ("diff --git a/parser/lex.go b/parser/lex.go" ++ nl);
       gitCommit "feat(parser): add lexer"].
Proof. vm_compute. split; reflexivity. Qed.

(** ** The scroll-back buffer *)

Section ScreenBufFacts.

Import Term.
Local Open Scope Z_scope.

Lemma wrap_small (z : Z) : - 2 ^ 63 <= z < 2 ^ 63 -> wrap z = z.
Proof. intros H. unfold wrap. rewrite Z.mod_small; lia. Qed.

Lemma wrap_range (z : Z) : - 2 ^ 63 <= wrap z < 2 ^ 63.
Proof.
  unfold wrap. pose proof (Z.mod_pos_bound (z + 2 ^ 63) (2 ^ 64) ltac:(lia)). lia.
Qed.

(** X11: a new buffer is empty and its height is the terminal's height
    less two, and 1 if that is less than 1 (a terminal of one to three
    lines keeps one line); it is 22 when the size of the terminal cannot be
    read. *)
Theorem new_buffer_height (w : list string) (size : option Z) :
  wellFormed (NewScreenBuf w size) /\
  lines (NewScreenBuf w size) = [] /\
  writer (NewScreenBuf w size) = w /\
  height (NewScreenBuf w None) = 22 /\
  (forall h, 3 <= h <= 2 ^ 63 - 1 -> height (NewScreenBuf w (Some h)) = h - 2) /\
  (forall h, - 2 ^ 63 + 2 <= h <= 2 -> height (NewScreenBuf w (Some h)) = 1).
Proof.
  repeat split.
  - unfold NewScreenBuf. cbn [height].
    pose proof (wrap_range (match size with Some h => h | None => 24 end - 2)).
    destruct (Z.ltb_spec (wrap (match size with Some h => h | None => 24 end - 2)) 1); lia.
  - unfold NewScreenBuf. cbn [height].
    pose proof (wrap_range (match size with Some h => h | None => 24 end - 2)).
    destruct (Z.ltb_spec (wrap (match size with Some h => h | None => 24 end - 2)) 1); lia.
  - unfold NewScreenBuf. cbn [height lines].
    destruct (Z.ltb_spec (wrap (match size with Some h => h | None => 24 end - 2)) 1);
      cbn; lia.
  - intros h Hh. unfold NewScreenBuf. cbn [height].
    rewrite wrap_small by lia. destruct (Z.ltb_spec (h - 2) 1); lia.
  - intros h Hh. unfold NewScreenBuf. cbn [height].
    rewrite wrap_small by lia. destruct (Z.ltb_spec (h - 2) 1); lia.
Qed.

Lemma WriteLine_append (sb : ScreenBuf) (s : string) :
  Z.of_nat (List.length (lines sb)) <> height sb ->
  WriteLine sb s =
    Some (mkScreenBuf (writer sb ++ [s ++ nl]%string) (lines sb ++ [s]) (height sb)).
Proof.
  intros H. unfold WriteLine.
  destruct (Z.eqb_spec (Z.of_nat (List.length (lines sb))) (height sb)); [contradiction|].
  reflexivity.
Qed.

Lemma copy_shift (x : string) (t : list string) :
  exists y, copy (x :: t) t = (t ++ [y])%list.
Proof.
  unfold copy. cbn [List.length]. rewrite Nat.min_r by lia.
  rewrite firstn_all.
  assert (H : List.length (skipn (List.length t) (x :: t)) = 1%nat)
    by (rewrite length_skipn; cbn [List.length]; lia).
  destruct (skipn (List.length t) (x :: t)) as [|y [|z r]]; try discriminate.
  now exists y.
Qed.

Lemma setIndex_last (t : list string) (y v : string) :
  setIndex (t ++ [y]) (Z.of_nat (List.length t)) v = Some (t ++ [v])%list.
Proof.
  unfold setIndex. rewrite length_app. cbn [List.length].
  destruct (Z.leb_spec 0 (Z.of_nat (List.length t))); [|lia].
  destruct (Z.ltb_spec (Z.of_nat (List.length t)) (Z.of_nat (List.length t + 1))); [|lia].
  cbn [andb]. rewrite Nat2Z.id.
  rewrite firstn_app, firstn_all, Nat.sub_diag. cbn [firstn].
  rewrite skipn_all2 by (rewrite length_app; cbn; lia).
  now rewrite app_nil_r.
Qed.

(** X12: a write to a full buffer drops the oldest line, keeps the others
    in their order and puts the new line last, so the number of lines stays
    the height; the writer gets four writes: cursor home, delete line, move
    to row height less one, and the new line with no line feed after it. *)
Theorem full_buffer_scrolls (sb : ScreenBuf) (s : string) :
  wellFormed sb ->
  Z.of_nat (List.length (lines sb)) = height sb ->
  WriteLine sb s =
    Some (mkScreenBuf (writer sb ++ scroll (height sb) ++ [s])
            (tl (lines sb) ++ [s]) (height sb)).
Proof.
  intros [[H1 H2] _] Hfull. unfold WriteLine.
  destruct (Z.eqb_spec (Z.of_nat (List.length (lines sb))) (height sb)); [|contradiction].
  cbn [Fprint lines height writer].
  destruct (lines sb) as [|x t] eqn:Hl; [cbn in Hfull; lia|].
  cbn [from1 tl]. destruct (copy_shift x t) as [y ->].
  rewrite wrap_small by lia.
  replace (height sb - 1) with (Z.of_nat (List.length t))
    by (cbn [List.length] in Hfull; lia).
  rewrite setIndex_last. unfold scroll.
  replace (Z.of_nat (List.length t)) with (height sb - 1)
    by (cbn [List.length] in Hfull; lia).
  rewrite <- !app_assoc. reflexivity.
Qed.

Lemma WriteLine_wellFormed (sb : ScreenBuf) (s : string) :
  wellFormed sb ->
  exists sb',
    WriteLine sb s = Some sb' /\ wellFormed sb' /\ height sb' = height sb /\
    lines sb' = lastN (Z.to_nat (height sb)) (lines sb ++ [s]).
Proof.
  intros Hwf. pose proof Hwf as [[H1 H2] H3].
  destruct (Z.eq_dec (Z.of_nat (List.length (lines sb))) (height sb)) as [Hfull|Hroom].
  - rewrite (full_buffer_scrolls sb s Hwf Hfull). eexists. split; [reflexivity|].
    destruct (lines sb) as [|x t] eqn:Hl; [cbn in Hfull; lia|].
    unfold wellFormed, lastN. cbn [tl lines height].
    rewrite !length_app. cbn [List.length app] in *.
    match goal with
    | |- context [skipn ?n _] => replace n with 1%nat by lia
    end.
    repeat split; try lia.
  - rewrite (WriteLine_append sb s Hroom). eexists. split; [reflexivity|].
    unfold wellFormed, lastN. cbn [lines height].
    rewrite !length_app. cbn [List.length].
    match goal with
    | |- context [skipn ?n _] => replace n with 0%nat by lia
    end.
    repeat split; try lia.
Qed.

Lemma lastN_app {A} (n : nat) (a b : list A) :
  lastN n (lastN n a ++ b) = lastN n (a ++ b).
Proof.
  unfold lastN. rewrite !length_app, length_skipn.
  destruct (Nat.le_gt_cases (List.length a) n) as [Hle|Hgt].
  - replace (List.length a - n)%nat with 0%nat by lia. cbn [skipn].
    now rewrite Nat.sub_0_r.
  - replace (List.length a - (List.length a - n) + List.length b - n)%nat
      with (List.length b) by lia.
    replace (List.length a + List.length b - n)%nat
      with ((List.length a - n) + List.length b)%nat by lia.
    rewrite (Nat.add_comm (List.length a - n)), <- skipn_skipn.
    f_equal. rewrite skipn_app.
    replace (List.length a - n - List.length a)%nat with 0%nat by lia. reflexivity.
Qed.

Lemma lastN_le {A} (n : nat) (a : list A) :
  (List.length a <= n)%nat -> lastN n a = a.
Proof.
  intros H. unfold lastN. now replace (List.length a - n)%nat with 0%nat by lia.
Qed.

Lemma WriteLines_run (l : list string) (sb : ScreenBuf) :
  wellFormed sb ->
  exists sb',
    WriteLines sb l = Some sb' /\ wellFormed sb' /\ height sb' = height sb /\
    lines sb' = lastN (Z.to_nat (height sb)) (lines sb ++ l).
Proof.
  revert sb. induction l as [|s l IH]; intros sb Hwf.
  - exists sb. cbn [WriteLines]. repeat split; try apply Hwf.
    rewrite app_nil_r. symmetry. apply lastN_le. destruct Hwf as [_ H]. lia.
  - destruct (WriteLine_wellFormed sb s Hwf) as (sb1 & H1 & Hwf1 & Hh1 & Hl1).
    destruct (IH sb1 Hwf1) as (sb' & H2 & Hwf' & Hh' & Hl').
    exists sb'. cbn [WriteLines]. rewrite H1. repeat split; try apply Hwf'; try congruence.
    rewrite Hl', Hl1, Hh1, lastN_app, <- app_assoc. reflexivity.
Qed.

(** X13: on a buffer made by [NewScreenBuf], and after any [Clear], no
    sequence of writes panics, and the buffer never holds more lines than
    its height, which stays what it was. *)
Theorem writes_keep_the_buffer_bounded (sb : ScreenBuf) (l : list string) :
  wellFormed sb ->
  wellFormed (Clear sb) /\
  exists sb',
    WriteLines sb l = Some sb' /\
    wellFormed sb' /\
    height sb' = height sb /\
    Z.of_nat (List.length (lines sb')) <= height sb.
Proof.
  intros Hwf. split.
  - destruct Hwf as [H _]. split; cbn; lia.
  - destruct (WriteLines_run l sb Hwf) as (sb' & H1 & Hwf' & Hh & _).
    exists sb'. repeat split; try apply Hwf'; auto.
    destruct Hwf' as [_ H]. lia.
Qed.

(** X14: the buffer is a window on what was written: after a sequence of
    writes it holds the last [height] lines of what it held followed by
    what was written, in order. *)
Theorem buffer_keeps_the_last_lines (sb sb' : ScreenBuf) (l : list string) :
  wellFormed sb ->
  WriteLines sb l = Some sb' ->
  lines sb' = lastN (Z.to_nat (height sb)) (lines sb ++ l).
Proof.
  intros Hwf Hrun.
  destruct (WriteLines_run l sb Hwf) as (sb1 & H1 & _ & _ & Hl).
  rewrite Hrun in H1. injection H1 as <-. exact Hl.
Qed.

(** X15: until the buffer is full nothing but the lines goes to the writer:
    each line is written once, followed by a line feed, and no control
    sequence is written. *)
Theorem no_scrolling_until_full (l : list string) (sb : ScreenBuf) :
  Z.of_nat (List.length (lines sb) + List.length l) <= height sb ->
  WriteLines sb l =
    Some (mkScreenBuf (writer sb ++ map (fun s => s ++ nl)%string l)
            (lines sb ++ l) (height sb)).
Proof.
  revert sb. induction l as [|s l IH]; intros sb H.
  - cbn [WriteLines map]. rewrite !app_nil_r. now destruct sb.
  - cbn [WriteLines List.length] in *. rewrite WriteLine_append by lia.
    rewrite IH by (cbn [lines height]; rewrite length_app; cbn [List.length]; lia).
    cbn [writer lines height map]. rewrite <- !app_assoc. reflexivity.
Qed.

Lemma Split_noNewline (s : string) :
  noNewline s = true -> Split s "010" = [s].
Proof.
  induction s as [|c s IH]; [reflexivity|]. cbn [noNewline Split].
  destruct (Ascii.eqb c "010"); [discriminate|]. cbn [negb andb].
  intros H. now rewrite (IH H).
Qed.

Lemma Split_line (s rest : string) :
  noNewline s = true ->
  Split (s ++ nl ++ rest) "010" = s :: Split rest "010".
Proof.
  induction s as [|c s IH]; [reflexivity|]. cbn [noNewline].
  destruct (Ascii.eqb c "010") eqn:Hc; [discriminate|]. cbn [negb andb].
  intros H. cbn [append Split]. rewrite Hc.
  change (Split (s ++ nl ++ rest) "010") with (Split (s ++ nl ++ rest)%string "010").
  now rewrite (IH H).
Qed.

(** X16: the text of the buffer reads back as its lines: splitting what
    [String] returns at the line feeds gives the lines of the buffer when
    there is at least one line and no line contains a line feed. The
    empty buffer gives the empty text, which splits into one empty line. *)
Theorem text_splits_into_the_lines (sb : ScreenBuf) :
  (lines sb <> [] ->
   forallb noNewline (lines sb) = true ->
   Split (String_ sb) "010" = lines sb) /\
  (lines sb = [] ->
   String_ sb = EmptyString /\ Split (String_ sb) "010" = [EmptyString]).
Proof.
  unfold String_, Join. split.
  - intros Hne Hall. induction (lines sb) as [|x l IH]; [contradiction|].
    cbn [forallb] in Hall. apply andb_true_iff in Hall. destruct Hall as [Hx Hl].
    destruct l as [|y l].
    + cbn [concat]. now apply Split_noNewline.
    + change (concat nl (x :: y :: l)) with (x ++ nl ++ concat nl (y :: l))%string.
      rewrite (Split_line _ _ Hx). f_equal. apply IH; [discriminate | exact Hl].
  - intros ->. split; reflexivity.
Qed.

End ScreenBufFacts.

(** ** Loading a provider *)

Section ProviderFacts.

Import Providers.
Variable D : Deps.

Lemma Load_ollama (provider : AIProvider D) (model : string) (w : Env D) :
  same D provider (OpenAIProvider D) = false ->
  same D provider (OllamaProvider D) = true ->
  LoadTextToTextProvider D provider model w =
    (let '(cmd, err, w1) := ensureOllama D w in
     match err with
     | Some e => (inl ("error installing ollama: " ++ e), w1)
     | None =>
         let '(url, w2) := getOllamaURL D w1 in
         let '(r, w3) := newOllama D url model cmd w2 in
         (created D "ollama" r, w3)
     end).
Proof.
  intros H1 H2. unfold LoadTextToTextProvider. rewrite H1, H2.
  destruct (ensureOllama D w) as [[cmd [e|]] w1]; [reflexivity|].
  destruct (getOllamaURL D w1) as [url w2].
  destruct (newOllama D url model cmd w2) as [[e|p] w3]; reflexivity.
Qed.

(** X18: for the Ollama provider, Ollama is started only when no server is
    running, and downloaded only when that start fails. With a server
    running the provider is built without a command, and nothing is
    started or downloaded; when the start succeeds, the provider is built
    with the started command and nothing is downloaded. *)
Theorem ollama_is_started_only_when_absent
    (provider : AIProvider D) (model : string) (w : Env D) :
  same D provider (OpenAIProvider D) = false ->
  same D provider (OllamaProvider D) = true ->
  (forall w1 url w2 r w3,
     ollamaServerIsRunning D w = (true, w1) ->
     getOllamaURL D w1 = (url, w2) ->
     newOllama D url model None w2 = (r, w3) ->
     LoadTextToTextProvider D provider model w = (created D "ollama" r, w3)) /\
  (forall w1 cmd w2 url w3 r w4,
     ollamaServerIsRunning D w = (false, w1) ->
     tryStartOllama D w1 = ((cmd, None), w2) ->
     getOllamaURL D w2 = (url, w3) ->
     newOllama D url model cmd w3 = (r, w4) ->
     LoadTextToTextProvider D provider model w = (created D "ollama" r, w4)).
Proof.
  intros H1 H2. rewrite (Load_ollama provider model w H1 H2). split.
  - intros w1 url w2 r w3 Hr Hu Hn. unfold ensureOllama. rewrite Hr. cbn [negb].
    now rewrite Hu, Hn.
  - intros w1 cmd w2 url w3 r w4 Hr Hs Hu Hn. unfold ensureOllama.
    rewrite Hr. cbn [negb]. rewrite Hs. now rewrite Hu, Hn.
Qed.

(** X19: when no server is running and Ollama cannot be started, it is
    downloaded into the directory [ollama] under the program directory. If
    the download fails in the end, the error of the installation is
    returned and no provider is built. If it succeeds, Ollama is not
    started again: the provider is built with the command the failed start
    returned. *)
Theorem ollama_is_not_started_after_download
    (provider : AIProvider D) (model : string) (w w1 w2 w3 w4 : Env D)
    (cmd : option (Cmd D)) (e : error) (dir : string) (installed : option error) :
  same D provider (OpenAIProvider D) = false ->
  same D provider (OllamaProvider D) = true ->
  ollamaServerIsRunning D w = (false, w1) ->
  tryStartOllama D w1 = ((cmd, Some e), w2) ->
  GetProgramDirectory D w2 = (dir, w3) ->
  Retry D (download D (dir ++ "/ollama")) w3 = (installed, w4) ->
  (forall e', installed = Some e' ->
     LoadTextToTextProvider D provider model w
       = (inl ("error installing ollama: " ++ e'), w4)) /\
  (installed = None ->
   forall url w5 r w6,
     getOllamaURL D w4 = (url, w5) ->
     newOllama D url model cmd w5 = (r, w6) ->
     LoadTextToTextProvider D provider model w = (created D "ollama" r, w6)).
Proof.
  intros H1 H2 Hr Hs Hd Hi. rewrite (Load_ollama provider model w H1 H2).
  unfold ensureOllama. rewrite Hr. cbn [negb]. rewrite Hs, Hd, Hi. split.
  - intros e' ->. reflexivity.
  - intros -> url w5 r w6 Hu Hn. now rewrite Hu, Hn.
Qed.

(** X20: a provider that is none of OpenAI, Ollama and OpenRouter gets an
    error and leaves the environment as it was (no variable is read,
    nothing is started or downloaded): the Anthropic provider is reported
    as not implemented, any other by its name as unknown. *)
Theorem other_providers_are_refused
    (provider : AIProvider D) (model : string) (w : Env D) :
  same D provider (OpenAIProvider D) = false ->
  same D provider (OllamaProvider D) = false ->
  same D provider (OpenRouterProvider D) = false ->
  LoadTextToTextProvider D provider model w =
    (inl (if same D provider (AnthropicProvider D)
          then "anthropic provider not implemented"
          else "unknown provider: " ++ text D provider),
     w).
Proof.
  intros H1 H2 H3. unfold LoadTextToTextProvider. rewrite H1, H2, H3.
  destruct (same D provider (AnthropicProvider D)); reflexivity.
Qed.

End ProviderFacts.

(** ** The further properties on sample runs *)

Lemma surjective_pairing3 {A B C} (x : A * B * C) :
  x = (fst (fst x), snd (fst x), snd x).
Proof. now destruct x as [[a b] c]. Qed.

Lemma triple_with {A B C} (x : A * B * C) (a : A) :
  fst (fst x) = a -> x = (a, snd (fst x), snd x).
Proof. intros <-. now destruct x as [[a b] c]. Qed.

Lemma pair_with {A B} (x : A * B) (a : A) : fst x = a -> x = (a, snd x).
Proof. intros <-. now destruct x. Qed.

Lemma run_eq (s : State Fake.collaborators) :
  OnStart Fake.collaborators Sample.decode 3 s
  = (fst (fst (Sample.run s)), snd (fst (Sample.run s)), snd (Sample.run s)).
Proof. unfold Sample.run. now destruct (OnStart _ _ _ _) as [[o s'] evs]. Qed.

(** The run that ends in a cancellation has applied and committed nothing. *)
Lemma failed_run_witness :
  fst (fst (Sample.run Sample.rejectedThenCancelled)) <> Returned None /\
  filter isApply (execs (snd (Sample.run Sample.rejectedThenCancelled))) = [] /\
  filter isCommit (execs (snd (Sample.run Sample.rejectedThenCancelled))) = [].
Proof.
  assert (H : fst (fst (Sample.run Sample.rejectedThenCancelled)) <> Returned None)
    by (vm_compute; discriminate).
  split; [exact H|].
  exact (failed_run_changes_nothing Fake.collaborators Sample.decode 3 _ _ _ _
           (run_eq Sample.rejectedThenCancelled) H).
Defined.

(** In the run with an accepted plan, the first patch-apply is the
    eighteenth event, and the accepting answer is among the seventeen
    before it. *)
Lemma acceptance_witness :
  nth_error (snd (Sample.run Sample.secondPatchFails)) 17
    = Some (EvExec (gitApply (Patch Sample.a1 ++ nl))
              (inr (mkResult true EmptyString EmptyString))) /\
  In (EvSelect question true true) (firstn 17 (snd (Sample.run Sample.secondPatchFails))) /\
  fst (fst (Sample.run Sample.secondPatchFails)) = Returned None.
Proof.
  split; [vm_compute; reflexivity|].
  refine (changes_only_after_acceptance Fake.collaborators Sample.decode 3 _ _ _ _
            (firstn 17 (snd (Sample.run Sample.secondPatchFails)))
            (skipn 18 (snd (Sample.run Sample.secondPatchFails)))
            (gitApply (Patch Sample.a1 ++ nl))
            (inr (mkResult true EmptyString EmptyString))
            (run_eq Sample.secondPatchFails) _ eq_refl).
  vm_compute. reflexivity.
Defined.

(** The plan of three actions whose second commit is refused. *)
Lemma failed_commit_witness :
  fst (fst (applyActions Fake.collaborators 0 [Sample.a1; Sample.a2; Sample.a3] []
              Scenes.secondCommitFails))
    = ["failed to commit changes 1: error: gpg failed to sign the data"] /\
  execs (snd (applyActions Fake.collaborators 0 [Sample.a1; Sample.a2; Sample.a3] []
                Scenes.secondCommitFails))
    = [gitApply (Patch Sample.a1 ++ nl); gitCommit (CommitMessage Sample.a1);
       gitApply (Patch Sample.a2 ++ nl); gitCommit (CommitMessage Sample.a2);
       gitApply (Patch Sample.a3 ++ nl); gitCommit (CommitMessage Sample.a3)].
Proof.
  pose proof (failed_commit_is_isolated Fake.collaborators
                [Sample.a1] [Sample.a3] Sample.a2 Scenes.secondCommitFails
                _ _ _ _ _ _ _ _ _ _
                (@surjective_pairing3 _ _ _
                   (applyActions Fake.collaborators 0 [Sample.a1] []
                      Scenes.secondCommitFails))
                eq_refl eq_refl eq_refl eq_refl
                (@surjective_pairing3 _ _ _
                   (applyActions Fake.collaborators 2 [Sample.a3] []
                      Scenes.secondCommitFails))) as H.
  change ([Sample.a1; Sample.a2; Sample.a3])
    with ([Sample.a1] ++ Sample.a2 :: [Sample.a3])%list.
  rewrite H. split; reflexivity.
Defined.

(** The only request of the run in which the backend answers in prose. *)
Lemma first_request_witness :
  generates (snd (Sample.run Sample.malformedReply))
    = [(Sample.transcript, inr "Sure, here is the plan")] /\
  exists result,
    In (EvExec gitStashShow (inr result)) (snd (Sample.run Sample.malformedReply)) /\
    Success result = true /\
    Output result <> EmptyString /\
    Sample.transcript
      = ([] ++ [NewMessage RoleSystem agentPrompt; NewMessage RoleUser (Output result)])%list.
Proof.
  assert (H : generates (snd (Sample.run Sample.malformedReply))
              = [(Sample.transcript, inr "Sure, here is the plan")])
    by (vm_compute; reflexivity).
  split; [exact H|].
  exact (first_request_is_prompt_and_diff Fake.collaborators Sample.decode 3 _ _ _ _ _ _ _
           (run_eq Sample.malformedReply) H).
Defined.

(** Five rounds with a user who is never satisfied. *)
Lemma unbounded_rounds_witness :
  fst (fst (negotiate Scenes.stubborn (Fake.decode []) 5
              (mkState (E:=Scenes.stubborn) tt [])))
    = OutOfFuel /\
  List.length (generates (snd (negotiate Scenes.stubborn (Fake.decode []) 5
                                 (mkState (E:=Scenes.stubborn) tt []))))
    = 5 /\
  execs (snd (negotiate Scenes.stubborn (Fake.decode []) 5
                (mkState (E:=Scenes.stubborn) tt [])))
    = [].
Proof.
  apply (refinement_rounds_are_unbounded Scenes.stubborn (Fake.decode [])
           (fun _ => True)); [|exact I].
  intros [] c _.
  exists tt, "{}", (c ++ [NewMessage RoleAssistant "{}"])%list, tt,
         (mkCommitPlan []), tt, "smaller commits", tt.
  repeat split.
Defined.

(** The run outside a repository. *)
Lemma failed_check_witness :
  OnStart Fake.collaborators Sample.decode 3 Sample.notARepository
  = (Returned (Some "not a git repository: not a git repository"),
     mkState (E:=Fake.collaborators) (world Sample.notARepository)
       [NewMessage RoleSystem agentPrompt],
     [EvLog LInfo "Starting commit usecase";
      EvExec gitRevParse
        (inr (mkResult false EmptyString "fatal: not a git repository"))]).
Proof.
  exact (failed_check_stops_before_capture Fake.collaborators Sample.decode 3
           Sample.notARepository _ _ eq_refl eq_refl).
Defined.

(** The run in which the diff cannot be shown. *)
Lemma failed_diff_witness :
  fst (fst (snapshot Fake.collaborators Sample.diffFails)) = None /\
  fst (fst (Sample.run Sample.diffFails))
    = Returned (Some "failed to get stash diff: failed to show stash diff") /\
  execs (snd (Sample.run Sample.diffFails))
    = [gitRevParse; gitStashPush "nomi-stash-20241105T093000"; gitStashApply; gitReset;
       gitStashShow; gitStashDrop].
Proof.
  split; [reflexivity|].
  destruct (failed_diff_is_released Fake.collaborators Sample.decode 3
              Sample.diffFails _ _
              (inr (mkResult false EmptyString "fatal: bad revision"))
              (world Sample.diffFails)
              (@surjective_pairing3 _ _ _ (snapshot Fake.collaborators Sample.diffFails))
              eq_refl eq_refl)
    as (s' & release & Hrun & Hexecs & _).
  unfold Sample.run. rewrite Hrun. cbn [fst snd]. split; [reflexivity|].
  rewrite !execs_app, Hexecs. reflexivity.
Defined.

(** The run whose stash cannot be dropped: the plan is committed and the
    run returns nil all the same. *)
Lemma release_failure_witness :
  fst (fst (Sample.run Scenes.dropFails)) = Returned None /\
  last (snd (Sample.run Scenes.dropFails)) (EvLog LInfo EmptyString)
    = EvLog LError "Failed to delete stash: failed to delete stash".
Proof.
  pose proof (release_failure_is_only_logged Fake.collaborators Sample.decode 3
                Scenes.dropFails _ _ _ _ None
                (inr (mkResult false EmptyString "error: could not drop stash entry")) _
                (surjective_pairing3 (snapshot Fake.collaborators Scenes.dropFails))
                (triple_with (planAndCommit Fake.collaborators Sample.decode 3 _) _
                   ltac:(vm_compute; reflexivity))
                (pair_with (console_Exec Fake.collaborators gitStashDrop _) _ eq_refl)) as H.
  unfold Sample.run. rewrite H. cbn [fst snd]. split; [reflexivity|].
  vm_compute. reflexivity.
Defined.

(** The run in which the capture fails: the error is that of the capture,
    the last command of the run, after the repository check alone. *)
Lemma error_step_witness :
  failedStep Sample.decode (snd (Sample.run Sample.captureFails))
    "failed to stash changes: failed to stash changes: fatal: unable to write new index file".
Proof.
  refine (errors_name_the_failed_step Fake.collaborators Sample.decode 3
            Sample.captureFails
            (snd (fst (Sample.run Sample.captureFails)))
            (snd (Sample.run Sample.captureFails)) _ _).
  rewrite run_eq. reflexivity.
Defined.

(** A buffer of three lines (a terminal of five), full, takes a fourth line. *)
Lemma scroll_witness :
  Term.WriteLine (Term.mkScreenBuf [] ["a"; "b"; "c"] 3) "d"
  = Some (Term.mkScreenBuf
            [Term.esc ++ "[H"; Term.esc ++ "[M"; Term.esc ++ "[2;1H"; "d"]
            ["b"; "c"; "d"] 3).
Proof.
  refine (full_buffer_scrolls (Term.mkScreenBuf [] ["a"; "b"; "c"] 3) "d" _ eq_refl).
  unfold Term.wellFormed. cbn. lia.
Defined.

(** Five writes to the buffer of a terminal of five lines. *)
Lemma bounded_buffer_witness :
  Term.wellFormed (Term.NewScreenBuf [] (Some 5%Z)) /\
  exists sb',
    Term.WriteLines (Term.NewScreenBuf [] (Some 5%Z)) ["a"; "b"; "c"; "d"; "e"] = Some sb' /\
    (Z.of_nat (List.length (Term.lines sb')) <= 3)%Z.
Proof.
  assert (H : Term.wellFormed (Term.NewScreenBuf [] (Some 5%Z)))
    by (unfold Term.wellFormed; cbn; lia).
  split; [exact H|].
  destruct (proj2 (writes_keep_the_buffer_bounded
                     (Term.NewScreenBuf [] (Some 5%Z)) ["a"; "b"; "c"; "d"; "e"] H))
    as (sb' & Hrun & _ & _ & Hlen).
  exists sb'. split; [exact Hrun | exact Hlen].
Defined.

(** The same five writes: the buffer ends with the last three lines. *)
Lemma last_lines_witness :
  Term.WriteLines (Term.NewScreenBuf [] (Some 5%Z)) ["a"; "b"; "c"; "d"; "e"]
    = Some (Term.mkScreenBuf
              ["a" ++ nl; "b" ++ nl; "c" ++ nl;
               Term.esc ++ "[H"; Term.esc ++ "[M"; Term.esc ++ "[2;1H"; "d";
               Term.esc ++ "[H"; Term.esc ++ "[M"; Term.esc ++ "[2;1H"; "e"]
              ["c"; "d"; "e"] 3) /\
  ["c"; "d"; "e"] = Term.lastN 3 ([] ++ ["a"; "b"; "c"; "d"; "e"]).
Proof.
  assert (H : Term.WriteLines (Term.NewScreenBuf [] (Some 5%Z)) ["a"; "b"; "c"; "d"; "e"]
              = Some (Term.mkScreenBuf
                        ["a" ++ nl; "b" ++ nl; "c" ++ nl;
                         Term.esc ++ "[H"; Term.esc ++ "[M"; Term.esc ++ "[2;1H"; "d";
                         Term.esc ++ "[H"; Term.esc ++ "[M"; Term.esc ++ "[2;1H"; "e"]
                        ["c"; "d"; "e"] 3))
    by (vm_compute; reflexivity).
  split; [exact H|].
  refine (buffer_keeps_the_last_lines _ _ _ _ H).
  unfold Term.wellFormed. cbn. lia.
Defined.

(** Two writes to a buffer of 22 lines. *)
Lemma no_scrolling_witness :
  Term.WriteLines (Term.NewScreenBuf [] None) ["a"; "b"]
  = Some (Term.mkScreenBuf ["a" ++ nl; "b" ++ nl] ["a"; "b"] 22).
Proof.
  refine (no_scrolling_until_full ["a"; "b"] (Term.NewScreenBuf [] None) _).
  cbn. lia.
Defined.

(** Ollama is served already. *)
Lemma ollama_served_witness :
  Providers.LoadTextToTextProvider ProviderScenes.deps "ollama" "llama3"
    ProviderScenes.served
  = (inr "ollama/llama3",
     ProviderScenes.mk true false false ["running?"; "url"; "new ollama"]).
Proof.
  exact (proj1 (ollama_is_started_only_when_absent ProviderScenes.deps
                  "ollama" "llama3" ProviderScenes.served eq_refl eq_refl)
           _ _ _ _ _ eq_refl eq_refl eq_refl).
Defined.

(** Ollama is absent: the download works, or there is no network. *)
Lemma ollama_download_witness :
  Providers.LoadTextToTextProvider ProviderScenes.deps "ollama" "llama3"
    ProviderScenes.absent
  = (inr "ollama/llama3",
     ProviderScenes.mk false false true
       ["running?"; "start"; "directory";
        "print Download ollama to /home/dev/.nomi/ollama" ++ nl;
        "download /home/dev/.nomi/ollama"; "url"; "new ollama"]) /\
  fst (Providers.LoadTextToTextProvider ProviderScenes.deps "ollama" "llama3"
         ProviderScenes.offline)
  = inl "error installing ollama: connection refused".
Proof.
  split.
  - exact (proj2 (ollama_is_not_started_after_download ProviderScenes.deps
                    "ollama" "llama3" ProviderScenes.absent _ _ _ _ None
                    "exec: ollama: not found" "/home/dev/.nomi" None
                    eq_refl eq_refl eq_refl eq_refl eq_refl eq_refl)
             eq_refl _ _ _ _ eq_refl eq_refl).
  - reflexivity.
Defined.

(** Two providers without an implementation. *)
Lemma refused_provider_witness :
  Providers.LoadTextToTextProvider ProviderScenes.deps "anthropic" "claude"
    ProviderScenes.served
  = (inl "anthropic provider not implemented", ProviderScenes.served) /\
  Providers.LoadTextToTextProvider ProviderScenes.deps "mistral" "large"
    ProviderScenes.served
  = (inl "unknown provider: mistral", ProviderScenes.served).
Proof.
  split.
  - exact (other_providers_are_refused ProviderScenes.deps "anthropic" "claude"
             ProviderScenes.served eq_refl eq_refl eq_refl).
  - exact (other_providers_are_refused ProviderScenes.deps "mistral" "large"
             ProviderScenes.served eq_refl eq_refl eq_refl).
Defined.
